(** * Bubbles Neo: the Bubble model (models/bubble.js) and its callers

    A shallow embedding of the validation helpers, of the gateway
    operations of [Bubble] and of the Cypher statements they send, followed
    by the properties of the specification that were checked against them.

    Layout:
    - [Js]      : the JavaScript values the model handles;
    - [Model]   : models/bubble.js, one definition per source function;
    - [Neo4j]   : the graph store and the meaning of each Cypher statement;
    - [Routes]  : the relate and unrelate routes of routes/bubbles.js;
    - [Spec]    : the vocabulary of the statements;
    - the properties, grouped by operation. *)

From Stdlib Require Import NArith ZArith Ascii String.
From stdpp Require Import gmap strings list fin_maps.

Open Scope string_scope.
Open Scope list_scope.

(** [length] is the length of a list throughout. *)
Abbreviation length := List.length (only parsing).

(** ** JavaScript values *)

Module Js.

(** A JavaScript string is a sequence of UTF-16 code units; [.length] counts
    code units and a regular expression without the [u] flag matches them one
    by one. *)
Definition jsstring := list N.

(** An ASCII literal of the source as a JavaScript string. *)
Definition js (s : string) : jsstring :=
  map N_of_ascii (list_ascii_of_string s).

(** The values that reach the model as a property or as an argument:
    [undefined], [null], the booleans and the strings.  Numbers, arrays and
    objects are not modelled, so nothing below speaks of a title that is one
    of them (for such a title [.length] and [RegExp.test] behave otherwise,
    and [test] throws a TypeError when the title cannot be converted to a
    string). *)
Inductive jsval :=
| VUndefined
| VNull
| VBool (b : bool)
| VString (s : jsstring).

#[export] Instance jsval_eq_dec : EqDecision jsval.
Proof. solve_decision. Defined.

(** ToBoolean: what [!val] and [a && b] look at. *)
Definition truthy (v : jsval) : bool :=
  match v with
  | VUndefined | VNull => false
  | VBool b => b
  | VString s => negb (bool_decide (s = []))
  end.

(** ToBoolean of a number literal of the configuration ([0] is falsy). *)
Definition truthy_num (n : N) : bool := negb (n =? 0)%N.

(** ToString, as used by [+] with a string operand and by [RegExp.test]. *)
Definition ToString (v : jsval) : jsstring :=
  match v with
  | VUndefined => js "undefined"
  | VNull => js "null"
  | VBool true => js "true"
  | VBool false => js "false"
  | VString s => s
  end.

(** [val.length]: a number for a string, [undefined] for a boolean.  (It is
    never evaluated on [undefined] or [null] by the code below.) *)
Definition get_length (v : jsval) : option N :=
  match v with
  | VString s => Some (N.of_nat (List.length s))
  | _ => None
  end.

(** [a < b] and [a > b] with a number on the right; [undefined] converts to
    NaN and every comparison with NaN is false. *)
Definition js_lt (a : option N) (b : N) : bool :=
  match a with Some n => (n <? b)%N | None => false end.
Definition js_gt (a : option N) (b : N) : bool :=
  match a with Some n => (b <? n)%N | None => false end.

(** [a === b] on the values above. *)
Definition strict_eq (a b : jsval) : bool := bool_decide (a = b).

(** An object used as a record of properties; a missing key reads as
    [undefined], and a key can be present with the value [undefined]. *)
Definition get (o : gmap string jsval) (k : string) : jsval :=
  default VUndefined (o !! k).

End Js.
Export Js.

(** ** models/bubble.js *)

Module Model.

(** *** Errors *)

(** What the driver hands to a callback as [err]: one of the classes of the
    neo4j package, each carrying [err.neo4j.code], or any other error object
    (a failed HTTP round trip). *)
Inductive store_error :=
| ClientError (code : string) (msg : jsstring)
| DatabaseError (code : string) (msg : jsstring)
| TransientError (code : string) (msg : jsstring)
| TransportError (msg : jsstring).

(** Modelled from the spec: [ValidationError], the class of models/errors.js
    (the model requires that file; it is not among the sources), an error
    class of its own that carries the message it is constructed with.

    The other constructors are the errors the model throws or passes to a
    callback besides: the built-in [Error] and [TypeError], and
    [StoreError e], the object received from the driver, handed on as it
    is. *)
Inductive jserror :=
| Error (message : jsstring)
| ValidationError (message : jsstring)
| TypeError (message : jsstring)
| StoreError (e : store_error).

(** The [name] of the error's class. *)
Definition error_name (e : jserror) : string :=
  match e with
  | Error _ => "Error"
  | ValidationError _ => "ValidationError"
  | TypeError _ => "TypeError"
  | StoreError (ClientError _ _) => "neo4j.ClientError"
  | StoreError (DatabaseError _ _) => "neo4j.DatabaseError"
  | StoreError (TransientError _ _) => "neo4j.TransientError"
  | StoreError (TransportError _) => "Error"
  end.

(** A function body either returns or throws. *)
Inductive completion (A : Type) :=
| Normal (a : A)
| Thrown (e : jserror).
Arguments Normal {A} a.
Arguments Thrown {A} e.

(** *** Bubble.VALIDATION_INFO *)

Record validation_info := {
  required : bool;
  minLength : N;
  maxLength : N;
  pattern : option (jsstring -> bool);
  message : jsstring
}.

Definition in_range (lo hi : string) (c : N) : bool :=
  match js lo, js hi with
  | [l], [h] => (l <=? c)%N && (c <=? h)%N
  | _, _ => false
  end.

(** The class [[A-Za-z0-9_]]. *)
Definition word_char (c : N) : bool :=
  in_range "A" "Z" c || in_range "a" "z" c || in_range "0" "9" c
  || in_range "_" "_" c.

(** [/^[A-Za-z0-9_]+$/.test(s)]: no flags, so [^] and [$] are the two ends of
    the input and [+] asks for one code unit of the class or more. *)
Definition title_pattern (s : jsstring) : bool :=
  negb (bool_decide (s = [])) && forallb word_char s.

Definition VALIDATION_INFO : list (string * validation_info) :=
  [ ("title",
     {| required := true;
        minLength := 2;
        maxLength := 55;
        pattern := Some title_pattern;
        message :=
          js "2-55 characters; letters, numbers, and underscores only." |}) ].

Fixpoint assoc {A} (k : string) (l : list (string * A)) : option A :=
  match l with
  | [] => None
  | (k', a) :: l' => if bool_decide (k = k') then Some a else assoc k l'
  end.

(** *** Private helpers *)

(** [validateProp(prop, val, required)]: [None] when it returns, [Some e] when
    it throws [e].  Reading [info.message] of a property that has no entry in
    the table is a TypeError. *)
Definition validateProp (prop : string) (val required : jsval)
  : option jserror :=
  match assoc prop VALIDATION_INFO with
  | None =>
      Some (TypeError (js "Cannot read property 'message' of undefined"))
  | Some info =>
      let message := info.(message) in
      if negb (truthy val) then
        if info.(Model.required) && truthy required then
          Some (ValidationError
                  (js "Missing " ++ js prop ++ js " (required)."))
        else None
      else if truthy_num info.(minLength)
              && js_lt (get_length val) info.(minLength) then
        Some (ValidationError
                (js "Invalid " ++ js prop ++ js " (too short). Requirements: "
                 ++ message))
      else if truthy_num info.(maxLength)
              && js_gt (get_length val) info.(maxLength) then
        Some (ValidationError
                (js "Invalid " ++ js prop ++ js " (too long). Requirements: "
                 ++ message))
      else
        match info.(pattern) with
        | Some test =>
            if negb (test (ToString val)) then
              Some (ValidationError
                      (js "Invalid " ++ js prop ++ js " (format). Requirements: "
                       ++ message))
            else None
        | None => None
        end
  end.

(** The loop of [validate] over the keys of the table, [safeProps] being the
    object built so far. *)
Fixpoint validate_loop (keys : list string) (props : gmap string jsval)
    (required : jsval) (safeProps : gmap string jsval)
  : completion (gmap string jsval) :=
  match keys with
  | [] => Normal safeProps
  | prop :: rest =>
      let val := get props prop in
      match validateProp prop val required with
      | Some e => Thrown e
      | None => validate_loop rest props required (<[prop := val]> safeProps)
      end
  end.

(** [validate(props, required)].  A call with one argument leaves [required]
    [undefined]. *)
Definition validate (props : gmap string jsval) (required : jsval)
  : completion (gmap string jsval) :=
  validate_loop (map fst VALIDATION_INFO) props required ∅.

(** [isConstraintViolation(err)] on an error received from the driver. *)
Definition isConstraintViolation (err : store_error) : bool :=
  match err with
  | ClientError code _ =>
      bool_decide (code = "Neo.ClientError.Schema.ConstraintViolation")
  | _ => false
  end.

(** *** The driver *)

(** A node as the driver returns it: its identity and its properties. *)
Record node := { _id : Z; properties : gmap string jsval }.

#[export] Instance node_eq_dec : EqDecision node.
Proof. solve_decision. Defined.

(** One object per row; its keys are the columns of the RETURN clause. *)
Record bubble_row := { col_bubble : node }.                  (* RETURN bubble *)
Record other_row := { col_other : node; col_count_rel : N }. (* RETURN other, COUNT(rel) *)

(** The eight statements of the model. *)
Inductive query :=
| Q_patch | Q_del | Q_relate | Q_unfollow | Q_getRelatedToAndOthers
| Q_get | Q_getAll | Q_create.

(** The lines each statement is joined from. *)
Definition query_text (q : query) : list string :=
  match q with
  | Q_patch =>
      [ "MATCH (bubble:Bubble {title: {title}})";
        "SET bubble += {props}";
        "RETURN bubble" ]
  | Q_del =>
      [ "MATCH (bubble:Bubble {title: {title}})";
        "OPTIONAL MATCH (bubble) -[rel:related]- (other)";
        "DELETE bubble, rel" ]
  | Q_relate =>
      [ "MATCH (bubble:Bubble {title: {thisTitle}})";
        "MATCH (other:Bubble {title: {otherTitle}})";
        "MERGE (bubble) -[rel:related]-> (other)" ]
  | Q_unfollow =>
      [ "MATCH (bubble:Bubble {title: {thisTitle}})";
        "MATCH (other:Bubble {title: {otherTitle}})";
        "MATCH (bubble) -[rel:related]-> (other)";
        "DELETE rel" ]
  | Q_getRelatedToAndOthers =>
      [ "MATCH (bubble:Bubble {title: {thisTitle}})";
        "MATCH (other:Bubble)";
        "OPTIONAL MATCH (bubble) -[rel:related]-> (other)";
        "RETURN other, COUNT(rel)" ]
  | Q_get =>
      [ "MATCH (bubble:Bubble {title: {title}})";
        "RETURN bubble" ]
  | Q_getAll =>
      [ "MATCH (bubble:Bubble)";
        "RETURN bubble" ]
  | Q_create =>
      [ "CREATE (bubble:Bubble {props})";
        "RETURN bubble" ]
  end.

(** The type of the rows of a statement; one without a RETURN clause has
    none. *)
Definition row (q : query) : Type :=
  match q with
  | Q_patch | Q_get | Q_getAll | Q_create => bubble_row
  | Q_getRelatedToAndOthers => other_row
  | Q_del | Q_relate | Q_unfollow => Empty_set
  end.

(** A parameter of a statement: a value or a map of properties. *)
Inductive param :=
| PVal (v : jsval)
| PObj (o : gmap string jsval).

(** What the driver calls back with: [(err, undefined)] or
    [(null, results)]. *)
Inductive response (R : Type) :=
| Failure (err : store_error)
| Success (results : list R).
Arguments Failure {R} err.
Arguments Success {R} results.

(** What a function does: return, throw, or hand a statement to [db.cypher]
    together with the callback that continues once the store has answered. *)
Inductive action (A : Type) : Type :=
| Ret (a : A)
| Throw (e : jserror)
| Cypher (q : query) (params : gmap string param)
         (callback : response (row q) -> action A).
Arguments Ret {A} a.
Arguments Throw {A} e.
Arguments Cypher {A} q params callback.

Fixpoint bind {A B} (m : action A) (f : A -> action B) : action B :=
  match m with
  | Ret a => f a
  | Throw e => Throw e
  | Cypher q params k => Cypher q params (fun r => bind (k r) f)
  end.

(** The arguments a Node-style callback is called with: [(err)] or
    [(null, value)]. *)
Inductive callback_args (A : Type) :=
| CbErr (err : jserror)
| CbOk (a : A).
Arguments CbErr {A} err.
Arguments CbOk {A} a.

(** The number of statements an action sends, the store answering as
    [answers] says. *)
Fixpoint round_trips {A} (answers : forall q, response (row q))
    (m : action A) : nat :=
  match m with
  | Ret _ | Throw _ => 0
  | Cypher q _ k => S (round_trips answers (k (answers q)))
  end.

(** What an action ends with, the store answering as [answers] says. *)
Fixpoint respond {A} (answers : forall q, response (row q))
    (m : action A) : completion A :=
  match m with
  | Ret a => Normal a
  | Throw e => Thrown e
  | Cypher q _ k => respond answers (k (answers q))
  end.

(** The statement an action sends first, with its parameters. *)
Definition sent {A} (m : action A) : option (query * gmap string param) :=
  match m with
  | Cypher q params _ => Some (q, params)
  | _ => None
  end.

(** An action that sends nothing more. *)
Definition final {A} (m : action A) : Prop :=
  match m with
  | Cypher _ _ _ => False
  | _ => True
  end.

(** An action that sends one statement at most, whatever the answer. *)
Definition single {A} (m : action A) : Prop :=
  match m with
  | Cypher _ _ k => ∀ r, final (k r)
  | _ => True
  end.

(** *** The Bubble object *)

Record Bubble := new_Bubble { _node : node }.

#[export] Instance Bubble_eq_dec : EqDecision Bubble.
Proof. solve_decision. Defined.

(** The [title] getter. *)
Definition title (self : Bubble) : jsval :=
  get (properties (_node self)) "title".

(** U+2018 and U+2019, the quotation marks of the "is taken" message. *)
Definition lsquo : jsstring := [8216%N].
Definition rsquo : jsstring := [8217%N].

(** The error both [patch] and [create] replace a constraint violation
    with. *)
Definition title_taken (props : gmap string jsval) : jserror :=
  ValidationError
    (js "The title " ++ lsquo ++ ToString (get props "title") ++ rsquo
     ++ js " is taken.").

(** The members of [Bubble.prototype]: the [title] getter and the five
    methods assigned to it. *)
Inductive member :=
| M_title | M_patch | M_del | M_relate | M_unfollow
| M_getRelatedToAndOthers.

Definition Bubble_prototype : list (string * member) :=
  [ ("title", M_title);
    ("patch", M_patch);
    ("del", M_del);
    ("relate", M_relate);
    ("unfollow", M_unfollow);
    ("getRelatedToAndOthers", M_getRelatedToAndOthers) ].

(** *** Public instance methods *)

(** The callback of [patch]; the first component of the result is [self]
    once the callback has run. *)
Definition patch_callback (self : Bubble) (props : gmap string jsval)
    (r : response bubble_row) : action (Bubble * callback_args unit) :=
  match r with
  | Failure err =>
      let err :=
        if isConstraintViolation err then title_taken props
        else StoreError err in
      Ret (self, CbErr err)
  | Success [] =>
      let err :=
        Error (js "Bubble has been deleted! Title: " ++ ToString (title self)) in
      Ret (self, CbErr err)
  | Success (r0 :: _) =>
      Ret (new_Bubble (col_bubble r0), CbOk tt)
  end.

Definition Bubble_patch (self : Bubble) (props : gmap string jsval)
  : action (Bubble * callback_args unit) :=
  match validate props VUndefined with
  | Thrown e => Throw e
  | Normal safeProps =>
      Cypher Q_patch
        {[ "title" := PVal (title self); "props" := PObj safeProps ]}
        (patch_callback self props)
  end.

(** A callback that only forwards [err]. *)
Definition forward_err {R} (r : response R) : action (callback_args unit) :=
  match r with
  | Failure err => Ret (CbErr (StoreError err))
  | Success _ => Ret (CbOk tt)
  end.

Definition Bubble_del (self : Bubble) : action (callback_args unit) :=
  Cypher Q_del {[ "title" := PVal (title self) ]} forward_err.

Definition Bubble_relate (self other : Bubble) : action (callback_args unit) :=
  Cypher Q_relate
    {[ "thisTitle" := PVal (title self); "otherTitle" := PVal (title other) ]}
    forward_err.

Definition Bubble_unfollow (self other : Bubble)
  : action (callback_args unit) :=
  Cypher Q_unfollow
    {[ "thisTitle" := PVal (title self); "otherTitle" := PVal (title other) ]}
    forward_err.

(** The [for] loop of [getRelatedToAndOthers]; [push] appends. *)
Fixpoint partition_rows (bubble : Bubble) (results : list other_row)
    (relatedTo others : list Bubble) : list Bubble * list Bubble :=
  match results with
  | [] => (relatedTo, others)
  | result :: rest =>
      let other := new_Bubble (col_other result) in
      let related := col_count_rel result in
      if strict_eq (title bubble) (title other) then
        partition_rows bubble rest relatedTo others
      else if truthy_num related then
        partition_rows bubble rest (relatedTo ++ [other]) others
      else
        partition_rows bubble rest relatedTo (others ++ [other])
  end.

Definition getRelatedToAndOthers_callback (bubble : Bubble)
    (r : response other_row)
  : action (callback_args (list Bubble * list Bubble)) :=
  match r with
  | Failure err => Ret (CbErr (StoreError err))
  | Success results => Ret (CbOk (partition_rows bubble results [] []))
  end.

Definition Bubble_getRelatedToAndOthers (self : Bubble)
  : action (callback_args (list Bubble * list Bubble)) :=
  Cypher Q_getRelatedToAndOthers {[ "thisTitle" := PVal (title self) ]}
    (getRelatedToAndOthers_callback self).

(** *** Static methods *)

Definition get_callback (title : jsval) (r : response bubble_row)
  : action (callback_args Bubble) :=
  match r with
  | Failure err => Ret (CbErr (StoreError err))
  | Success [] =>
      Ret (CbErr (Error (js "No such bubble with title: " ++ ToString title)))
  | Success (r0 :: _) => Ret (CbOk (new_Bubble (col_bubble r0)))
  end.

Definition Bubble_get (title : jsval) : action (callback_args Bubble) :=
  Cypher Q_get {[ "title" := PVal title ]} (get_callback title).

Definition getAll_callback (r : response bubble_row)
  : action (callback_args (list Bubble)) :=
  match r with
  | Failure err => Ret (CbErr (StoreError err))
  | Success results =>
      Ret (CbOk (map (fun result => new_Bubble (col_bubble result)) results))
  end.

Definition Bubble_getAll : action (callback_args (list Bubble)) :=
  Cypher Q_getAll ∅ getAll_callback.

(** The callback of [create].  Reading [results[0]] of an empty array is a
    TypeError thrown inside the callback. *)
Definition create_callback (props : gmap string jsval)
    (r : response bubble_row) : action (callback_args Bubble) :=
  match r with
  | Failure err =>
      let err :=
        if isConstraintViolation err then title_taken props
        else StoreError err in
      Ret (CbErr err)
  | Success [] =>
      Throw (TypeError (js "Cannot read property 'bubble' of undefined"))
  | Success (r0 :: _) => Ret (CbOk (new_Bubble (col_bubble r0)))
  end.

Definition Bubble_create (props : gmap string jsval)
  : action (callback_args Bubble) :=
  match validate props VUndefined with
  | Thrown e => Throw e
  | Normal safeProps =>
      Cypher Q_create {[ "props" := PObj safeProps ]} (create_callback props)
  end.

End Model.
Export Model.

(** ** The graph store

    The statements above are Cypher; this module gives each of them its
    meaning on a graph that holds [Bubble] nodes and [related]
    relationships only, with the uniqueness constraint on [(Bubble, title)]
    registered.  The driver sends the parameters as JSON, so a key whose
    value is [undefined] is not sent. *)

Module Neo4j.

Record graph := {
  nodes : list node;
  rels : list (Z * Z);     (* (start node id, end node id), type related *)
  next_id : Z
}.

Definition empty_graph : graph := {| nodes := []; rels := []; next_id := 0 |}.

Definition parameter_missing {R} : response R :=
  Failure (ClientError "Neo.ClientError.Statement.ParameterMissing"
                       (js "Expected a parameter")).

Definition constraint_violation {R} : response R :=
  Failure (ClientError "Neo.ClientError.Schema.ConstraintViolation"
                       (js "Node already exists with label Bubble and property title")).

(** A value parameter as the store receives it. *)
Definition param_value (params : gmap string param) (k : string)
  : option jsval :=
  match params !! k with
  | Some (PVal VUndefined) => None
  | Some (PVal v) => Some v
  | _ => None
  end.

Definition param_map (params : gmap string param) (k : string)
  : option (gmap string jsval) :=
  match params !! k with
  | Some (PObj o) => Some o
  | _ => None
  end.

(** [(n:Bubble {title: v})]: the property is there and equal; [null] is
    equal to nothing. *)
Definition has_title (v : jsval) (n : node) : Prop :=
  v ≠ VNull ∧ properties n !! "title" = Some v.

#[export] Instance has_title_dec v n : Decision (has_title v n).
Proof. unfold has_title. apply _. Defined.

(** One key of [SET n += {props}] and of [CREATE (n {props})]: a key that
    was not sent leaves the property alone, [null] removes it, any other
    value replaces it. *)
Definition set_prop (sent old : option jsval) : option jsval :=
  match sent with
  | None | Some VUndefined => old
  | Some VNull => None
  | Some v => Some v
  end.

Definition set_props (props : gmap string jsval) (n : node) : node :=
  {| _id := _id n; properties := merge set_prop props (properties n) |}.

(** The uniqueness constraint: the title of [n], if it has one, is the title
    of another node of [ns]. *)
Definition title_clash (n : node) (ns : list node) : Prop :=
  ∃ t, properties n !! "title" = Some t ∧
       Exists (λ m, _id m ≠ _id n ∧ properties m !! "title" = Some t) ns.

#[export] Instance title_clash_dec n ns : Decision (title_clash n ns).
Proof.
  unfold title_clash. destruct (properties n !! "title") as [t|] eqn:E.
  - destruct (decide (Exists (λ m, _id m ≠ _id n
                                   ∧ properties m !! "title" = Some t) ns)).
    + left. eauto.
    + right. intros (t' & [= <-] & H). done.
  - right. intros (t' & [=] & _).
Defined.

(** [MERGE (a) -[:related]-> (b)] for one pair of matched nodes. *)
Definition merge_rel (rs : list (Z * Z)) (e : Z * Z) : list (Z * Z) :=
  if decide (e ∈ rs) then rs else rs ++ [e].

(** The pairs two MATCH clauses bind. *)
Definition pairs (bs os : list node) : list (Z * Z) :=
  b ← bs; o ← os; [(_id b, _id o)].

Definition cypher (g : graph) (q : query) (params : gmap string param)
  : graph * response (row q) :=
  match q return graph * response (row q) with
  | Q_create =>
      match param_map params "props" with
      | None => (g, parameter_missing)
      | Some props =>
          let n := set_props props {| _id := next_id g; properties := ∅ |} in
          if decide (title_clash n (nodes g)) then (g, constraint_violation)
          else
            ({| nodes := nodes g ++ [n]; rels := rels g;
                next_id := next_id g + 1 |},
             Success [ {| col_bubble := n |} ])
      end
  | Q_patch =>
      match param_value params "title", param_map params "props" with
      | Some t, Some props =>
          let update n :=
            if decide (has_title t n) then set_props props n else n in
          let nodes' := map update (nodes g) in
          let matched := filter (has_title t) (nodes g) in
          if decide (Exists (λ n, title_clash (update n) nodes') matched)
          then (g, constraint_violation)
          else
            ({| nodes := nodes'; rels := rels g; next_id := next_id g |},
             Success (map (λ n, {| col_bubble := update n |}) matched))
      | _, _ => (g, parameter_missing)
      end
  | Q_del =>
      match param_value params "title" with
      | Some t =>
          let gone := map _id (filter (has_title t) (nodes g)) in
          ({| nodes := filter (λ n, ¬ has_title t n) (nodes g);
              rels := filter (λ e, ¬ (fst e ∈ gone ∨ snd e ∈ gone)) (rels g);
              next_id := next_id g |},
           Success [])
      | None => (g, parameter_missing)
      end
  | Q_relate =>
      match param_value params "thisTitle",
            param_value params "otherTitle" with
      | Some t, Some o =>
          let bound := pairs (filter (has_title t) (nodes g))
                             (filter (has_title o) (nodes g)) in
          ({| nodes := nodes g; rels := foldl merge_rel (rels g) bound;
              next_id := next_id g |},
           Success [])
      | _, _ => (g, parameter_missing)
      end
  | Q_unfollow =>
      match param_value params "thisTitle",
            param_value params "otherTitle" with
      | Some t, Some o =>
          let bound := pairs (filter (has_title t) (nodes g))
                             (filter (has_title o) (nodes g)) in
          ({| nodes := nodes g; rels := filter (λ e, e ∉ bound) (rels g);
              next_id := next_id g |},
           Success [])
      | _, _ => (g, parameter_missing)
      end
  | Q_getRelatedToAndOthers =>
      match param_value params "thisTitle" with
      | Some t =>
          let bs := map _id (filter (has_title t) (nodes g)) in
          let count other :=
            N.of_nat (length (filter (λ e, fst e ∈ bs ∧ snd e = _id other)
                                     (rels g))) in
          (g,
           Success (if decide (bs = []) then []
                    else map (λ other, {| col_other := other;
                                          col_count_rel := count other |})
                             (nodes g)))
      | None => (g, parameter_missing)
      end
  | Q_get =>
      match param_value params "title" with
      | Some t =>
          (g, Success (map (λ n, {| col_bubble := n |})
                           (filter (has_title t) (nodes g))))
      | None => (g, parameter_missing)
      end
  | Q_getAll =>
      (g, Success (map (λ n, {| col_bubble := n |}) (nodes g)))
  end.

(** An action run against the store: every statement it sends is answered
    by [cypher]. *)
Fixpoint run {A} (m : action A) (g : graph) : graph * completion A :=
  match m with
  | Ret a => (g, Normal a)
  | Throw e => (g, Thrown e)
  | Cypher q params k =>
      let '(g', r) := cypher g q params in run (k r) g'
  end.

(** The statements an action sends while it runs against the store, in
    order. *)
Fixpoint statements {A} (m : action A) (g : graph) : list query :=
  match m with
  | Ret _ | Throw _ => []
  | Cypher q params k =>
      let '(g', r) := cypher g q params in q :: statements (k r) g'
  end.

(** The number of [related] relationships from node [a] to node [b]. *)
Definition count_rel (g : graph) (a b : Z) : nat :=
  length (filter (λ e, e = (a, b)) (rels g)).

End Neo4j.
Export Neo4j.

(** ** routes/bubbles.js

    The two routes that change relationships, each written out as in the
    source.  [encodeURIComponent] is a built-in of the language and stays a
    parameter. *)

Module Routes.
Section Routes.

Variable encodeURIComponent : jsstring -> jsstring.

(** The parts of [req] the two routes read. *)
Record request := {
  params_title : jsval;              (* req.params.title *)
  body : gmap string jsval           (* req.body *)
}.

(** How a route ends: [next(err)] or [res.redirect(url)]. *)
Inductive reply :=
| Next (err : jserror)
| Redirect (url : jsstring).

Definition getBubbleURL (bubble : Bubble) : jsstring :=
  js "/bubbles/" ++ encodeURIComponent (ToString (title bubble)).

Definition not_a_function (name : string) : jserror :=
  TypeError (js "bubble." ++ js name ++ js " is not a function").

(** [bubble.<name>(other, callback)]: the member is looked up on
    [Bubble.prototype] and called with a Bubble and a function.  A name
    that is not there reads as [undefined], and the getter yields a value
    that is not a function: calling either is a TypeError.  A method of
    another signature takes [other] for its first parameter. *)
Definition call_with_other (name : string) (bubble other : Bubble)
  : action (callback_args unit) :=
  match assoc name Bubble_prototype with
  | None | Some M_title => Throw (not_a_function name)
  | Some M_relate => Bubble_relate bubble other
  | Some M_unfollow => Bubble_unfollow bubble other
  | Some M_patch =>
      bind (Bubble_patch bubble {[ "title" := title other ]})
           (λ r, Ret (snd r))
  | Some M_del =>
      Cypher Q_del {[ "title" := PVal (title bubble) ]}
        (λ _, Throw (TypeError (js "callback is not a function")))
  | Some M_getRelatedToAndOthers =>
      Cypher Q_getRelatedToAndOthers {[ "thisTitle" := PVal (title bubble) ]}
        (λ _, Throw (TypeError (js "callback is not a function")))
  end.

(** POST /bubbles/:title/relate {otherTitle} *)
Definition relate (req : request) : action reply :=
  bind (Bubble_get (params_title req)) (λ r,
    match r with
    | CbErr err => Ret (Next err)
    | CbOk bubble =>
        bind (Bubble_get (get (body req) "otherTitle")) (λ r,
          match r with
          | CbErr err => Ret (Next err)
          | CbOk other =>
              bind (call_with_other "relate" bubble other) (λ r,
                match r with
                | CbErr err => Ret (Next err)
                | CbOk _ => Ret (Redirect (getBubbleURL bubble))
                end)
          end)
    end).

(** POST /bubbles/:title/unrelate {otherTitle} *)
Definition unrelate (req : request) : action reply :=
  bind (Bubble_get (params_title req)) (λ r,
    match r with
    | CbErr err => Ret (Next err)
    | CbOk bubble =>
        bind (Bubble_get (get (body req) "otherTitle")) (λ r,
          match r with
          | CbErr err => Ret (Next err)
          | CbOk other =>
              bind (call_with_other "unrelate" bubble other) (λ r,
                match r with
                | CbErr err => Ret (Next err)
                | CbOk _ => Ret (Redirect (getBubbleURL bubble))
                end)
          end)
    end).

End Routes.
End Routes.

(** ** Vocabulary of the statements *)

Module Spec.

(** The messages [validateProp] builds for the [title] field. *)
Definition requirements : jsstring :=
  js "2-55 characters; letters, numbers, and underscores only.".
Definition missing_title : jserror :=
  ValidationError (js "Missing title (required).").
Definition title_too_short : jserror :=
  ValidationError (js "Invalid title (too short). Requirements: " ++ requirements).
Definition title_too_long : jserror :=
  ValidationError (js "Invalid title (too long). Requirements: " ++ requirements).
Definition title_bad_format : jserror :=
  ValidationError (js "Invalid title (format). Requirements: " ++ requirements).

(** A letter (U+0041 to U+005A, U+0061 to U+007A), a digit (U+0030 to
    U+0039) or the underscore (U+005F). *)
Definition title_char (c : N) : Prop :=
  (65 ≤ c ≤ 90 ∨ 97 ≤ c ≤ 122 ∨ 48 ≤ c ≤ 57 ∨ c = 95)%N.

#[export] Instance title_char_dec c : Decision (title_char c).
Proof. unfold title_char. apply _. Defined.

(** The rule of the data model, as the specification words it: a string the
    regular expression [^[A-Za-z0-9_]{2,55}$] matches. *)
Definition matches_title_rule (s : jsstring) : Prop :=
  (2 ≤ length s ≤ 55)%nat ∧ Forall title_char s.

#[export] Instance matches_title_rule_dec s : Decision (matches_title_rule s).
Proof. unfold matches_title_rule. apply _. Defined.

(** Every title of the store that is a non-empty string obeys the rule of
    the data model. *)
Definition titles_ok (g : graph) : Prop :=
  ∀ n s, n ∈ nodes g → properties n !! "title" = Some (VString s) →
         s ≠ [] → matches_title_rule s.

(** The same of the property set among the parameters of a statement. *)
Definition props_ok (params : gmap string param) : Prop :=
  ∀ props s, param_map params "props" = Some props →
             props !! "title" = Some (VString s) →
             s ≠ [] → matches_title_rule s.

(** The Bubble the loop of [getRelatedToAndOthers] makes of a row, and the
    rows it skips: those whose node has the title of the bubble itself. *)
Definition row_bubble (r : other_row) : Bubble := new_Bubble (col_other r).

Definition own_row (bubble : Bubble) (r : other_row) : Prop :=
  title (row_bubble r) = title bubble.

#[export] Instance own_row_dec bubble r : Decision (own_row bubble r).
Proof. unfold own_row. apply _. Defined.

(** Two bubbles, for the examples. *)

Definition alpha : node :=
  {| _id := 0; properties := {[ "title" := VString (js "Alpha") ]} |}.
Definition beta : node :=
  {| _id := 1; properties := {[ "title" := VString (js "Beta") ]} |}.

(** The store after [create] of "Alpha" and of "Beta". *)
Definition two_bubbles : graph :=
  {| nodes := [alpha; beta]; rels := []; next_id := 2 |}.

(** The same after [relate] from "Alpha" to "Beta". *)
Definition related_bubbles : graph :=
  {| nodes := [alpha; beta]; rels := [(0, 1)%Z]; next_id := 2 |}.

End Spec.
Export Spec.

(** ** routes/bubbles.js, the other routes

    The routes that create, show, edit and delete bubbles.  [URL.format]
    and [encodeURIComponent] are built-ins and stay parameters; [res.render]
    ends a route with the values it is given. *)

Module Pages.
Section Pages.

Variable encodeURIComponent : jsstring -> jsstring.

(** [URL.format({pathname: p, query: q})], [q] in the order of its keys. *)
Variable URL_format : jsstring -> list (string * jsval) -> jsstring.

(** [err instanceof errors.ValidationError] *)
Definition instanceof_ValidationError (err : jserror) : bool :=
  match err with
  | ValidationError _ => true
  | _ => false
  end.

(** [err.message] *)
Definition message_of (err : jserror) : jsstring :=
  match err with
  | Error m | ValidationError m | TypeError m => m
  | StoreError (ClientError _ m) | StoreError (DatabaseError _ m)
  | StoreError (TransientError _ m) | StoreError (TransportError m) => m
  end.

(** POST /bubbles {title, ...} *)
Definition create (req : Routes.request) : action Routes.reply :=
  bind (Bubble_create {[ "title" := get (Routes.body req) "title" ]}) (λ r,
    match r with
    | CbErr err =>
        if instanceof_ValidationError err then
          Ret (Routes.Redirect
                 (URL_format (js "/bubbles")
                    [ ("title", get (Routes.body req) "title");
                      ("error", VString (message_of err)) ]))
        else Ret (Routes.Next err)
    | CbOk bubble =>
        Ret (Routes.Redirect (Routes.getBubbleURL encodeURIComponent bubble))
    end).

(** The parts of [req] that [show] reads. *)
Record show_request := {
  show_params_title : jsval;         (* req.params.title *)
  show_query : gmap string jsval     (* req.query *)
}.

(** How [show] ends: [next(err)] or [res.render('bubble', locals)], with
    the locals that vary. *)
Inductive show_reply :=
| ShowNext (err : jserror)
| ShowRender (bubble : Bubble) (relatedTo others : list Bubble)
             (title error : jsval).

(** GET /bubbles/:title *)
Definition show (req : show_request) : action show_reply :=
  bind (Bubble_get (show_params_title req)) (λ r,
    match r with
    | CbErr err => Ret (ShowNext err)
    | CbOk bubble =>
        bind (Bubble_getRelatedToAndOthers bubble) (λ r,
          match r with
          | CbErr err => Ret (ShowNext err)
          | CbOk (relatedTo, others) =>
              Ret (ShowRender bubble relatedTo others
                     (get (show_query req) "title")
                     (get (show_query req) "error"))
          end)
    end).

(** POST /bubbles/:title {title, ...}.  [patch] assigns the node of
    [bubble], so the callback of [patch] sees the Bubble as [patch] left
    it. *)
Definition edit (req : Routes.request) : action Routes.reply :=
  bind (Bubble_get (Routes.params_title req)) (λ r,
    match r with
    | CbErr err => Ret (Routes.Next err)
    | CbOk bubble =>
        bind (Bubble_patch bubble (Routes.body req)) (λ '(bubble, r),
          match r with
          | CbErr err =>
              if instanceof_ValidationError err then
                Ret (Routes.Redirect
                       (URL_format
                          (Routes.getBubbleURL encodeURIComponent bubble)
                          [ ("title", get (Routes.body req) "title");
                            ("error", VString (message_of err)) ]))
              else Ret (Routes.Next err)
          | CbOk _ =>
              Ret (Routes.Redirect
                     (Routes.getBubbleURL encodeURIComponent bubble))
          end)
    end).

(** DELETE /bubbles/:title *)
Definition del (req : Routes.request) : action Routes.reply :=
  bind (Bubble_get (Routes.params_title req)) (λ r,
    match r with
    | CbErr err => Ret (Routes.Next err)
    | CbOk bubble =>
        bind (Bubble_del bubble) (λ r,
          match r with
          | CbErr err => Ret (Routes.Next err)
          | CbOk _ => Ret (Routes.Redirect (js "/bubbles"))
          end)
    end).

End Pages.
End Pages.

(** ** Vocabulary of the statements about the store *)

Module StoreSpec.

(** The node the store makes for a new bubble of title [s]. *)
Definition created (g : graph) (s : jsstring) : node :=
  {| _id := next_id g; properties := {[ "title" := VString s ]} |}.

(** The node [a] once its title is [s]. *)
Definition renamed (a : node) (s : jsstring) : node :=
  {| _id := _id a; properties := <[ "title" := VString s ]> (properties a) |}.

(** The message of a title that is taken: the title between U+2018 and
    U+2019. *)
Definition taken_message (s : jsstring) : jsstring :=
  js "The title " ++ [8216%N] ++ s ++ [8217%N] ++ js " is taken.".

(** The message of [get] for a title no node has. *)
Definition no_such_bubble (t : jsval) : jserror :=
  Error (js "No such bubble with title: " ++ ToString t).

(** The relationships of a store are in order: each starts and ends at a
    node of the store, and no two of them have the same start and end. *)
Definition rels_in_order (g : graph) : Prop :=
  NoDup (rels g)
  ∧ ∀ e, e ∈ rels g →
         fst e ∈ map _id (nodes g) ∧ snd e ∈ map _id (nodes g).

End StoreSpec.
Export StoreSpec.

(** * Properties *)

(** ** Validation *)

(** [validateProp] on the one field of the table, check by check. *)
Lemma validateProp_title (val required : jsval) :
  validateProp "title" val required =
  if negb (truthy val) then
    if truthy required then Some missing_title else None
  else if js_lt (get_length val) 2 then Some title_too_short
  else if js_gt (get_length val) 55 then Some title_too_long
  else if negb (title_pattern (ToString val)) then Some title_bad_format
  else None.
Proof. reflexivity. Qed.

(** [validate] runs that one check and copies the value it read. *)
Lemma validate_unfold (props : gmap string jsval) (required : jsval) :
  validate props required =
  match validateProp "title" (get props "title") required with
  | Some e => Thrown e
  | None => Normal {[ "title" := get props "title" ]}
  end.
Proof.
  unfold validate. cbn [VALIDATION_INFO map fst validate_loop].
  destruct (validateProp "title" (get props "title") required); [done|].
  by rewrite insert_empty.
Qed.

(** The class of the pattern is the class of the rule. *)
Lemma word_char_spec (c : N) : word_char c = true ↔ title_char c.
Proof.
  unfold word_char, in_range, title_char. cbn [js map list_ascii_of_string].
  change (N_of_ascii "A") with 65%N. change (N_of_ascii "Z") with 90%N.
  change (N_of_ascii "a") with 97%N. change (N_of_ascii "z") with 122%N.
  change (N_of_ascii "0") with 48%N. change (N_of_ascii "9") with 57%N.
  change (N_of_ascii "_") with 95%N.
  rewrite !orb_true_iff, !andb_true_iff, !N.leb_le. lia.
Qed.

Lemma forallb_word_char (s : jsstring) :
  forallb word_char s = true ↔ Forall title_char s.
Proof.
  rewrite forallb_forall, Forall_forall.
  split; intros H c Hc; apply word_char_spec, H; by apply list_elem_of_In.
Qed.

Lemma js_lt_length (s : jsstring) (n : nat) :
  js_lt (get_length (VString s)) (N.of_nat n) = bool_decide (length s < n)%nat.
Proof.
  cbn. destruct (N.ltb_spec (N.of_nat (length s)) (N.of_nat n));
    [rewrite bool_decide_eq_true_2 | rewrite bool_decide_eq_false_2]; lia.
Qed.

Lemma js_gt_length (s : jsstring) (n : nat) :
  js_gt (get_length (VString s)) (N.of_nat n) = bool_decide (n < length s)%nat.
Proof.
  cbn. destruct (N.ltb_spec (N.of_nat n) (N.of_nat (length s)));
    [rewrite bool_decide_eq_true_2 | rewrite bool_decide_eq_false_2]; lia.
Qed.

(** What [validateProp] does with a string, in terms of its length and of
    its code units. *)
Lemma validateProp_title_string (s : jsstring) (required : jsval) :
  validateProp "title" (VString s) required =
  if decide (s = []) then
    if truthy required then Some missing_title else None
  else if decide (length s < 2)%nat then Some title_too_short
  else if decide (55 < length s)%nat then Some title_too_long
  else if forallb word_char s then None
  else Some title_bad_format.
Proof.
  rewrite validateProp_title.
  change 2%N with (N.of_nat 2). change 55%N with (N.of_nat 55).
  rewrite js_lt_length, js_gt_length. cbn [truthy ToString].
  destruct (decide (s = [])) as [->|Hs].
  { by rewrite bool_decide_eq_true_2. }
  rewrite (bool_decide_eq_false_2 _ Hs). cbn [negb].
  repeat case_decide;
    rewrite ?bool_decide_eq_true_2, ?bool_decide_eq_false_2 by done;
    try done.
  unfold title_pattern. rewrite (bool_decide_eq_false_2 _ Hs). cbn [negb andb].
  by destruct (forallb word_char s).
Qed.

(** A value [validate] lets through is absent, not a string, or a string
    the rule of the data model accepts. *)
Lemma validate_Normal (props safeProps : gmap string jsval) (required : jsval) :
  validate props required = Normal safeProps →
  safeProps = {[ "title" := get props "title" ]}
  ∧ ∀ s, get props "title" = VString s → s ≠ [] → matches_title_rule s.
Proof.
  rewrite validate_unfold.
  destruct (validateProp _ _ _) as [e|] eqn:E; [done|].
  intros [= <-]. split; [done|]. intros s Hs Hne.
  rewrite Hs, validateProp_title_string in E.
  repeat case_decide; try done.
  destruct (forallb word_char s) eqn:F; [|done].
  split; [lia|]. by apply forallb_word_char.
Qed.


(** ** create and the required title (C1) *)

(** Called with [true], [validate] reports a title that is absent or
    empty. *)
Lemma validate_required_missing (props : gmap string jsval) :
  truthy (get props "title") = false →
  validate props (VBool true) = Thrown missing_title.
Proof.
  intros H. rewrite validate_unfold, validateProp_title. by rewrite H.
Qed.

(** [create] calls [validate] with one argument, so the missing title is
    never reported, whatever the attributes. *)
Lemma create_never_reports_missing (props : gmap string jsval) :
  Bubble_create props ≠ Throw missing_title.
Proof.
  unfold Bubble_create. rewrite validate_unfold, validateProp_title.
  cbn [truthy].
  repeat match goal with |- context [if ?b then _ else _] => destruct b end;
    discriminate.
Qed.

(** With a title that is absent or empty, [create] goes on to the store. *)
Lemma create_sends_absent_title (props : gmap string jsval) :
  truthy (get props "title") = false →
  sent (Bubble_create props)
  = Some (Q_create, {[ "props" := PObj {[ "title" := get props "title" ]} ]}).
Proof.
  intros H. unfold Bubble_create.
  rewrite validate_unfold, validateProp_title, H. done.
Qed.

(** C1.  The specification has [create] fail with "Missing title
    (required)." before any query when the title is absent.  At the empty
    attribute set, [validate] called with [true] does raise that error, but
    [create] sends the creation statement with the property set
    [{title: undefined}], and the store ends up with a node that has no
    title. *)
Theorem C1_create_missing_title_reaches_store :
  validate ∅ (VBool true) = Thrown missing_title
  ∧ Bubble_create ∅
    = Cypher Q_create {[ "props" := PObj {[ "title" := VUndefined ]} ]}
             (create_callback ∅)
  ∧ run (Bubble_create ∅) empty_graph
    = ({| nodes := [ {| _id := 0; properties := ∅ |} ];
          rels := []; next_id := 1 |},
       Normal (CbOk (new_Bubble {| _id := 0; properties := ∅ |}))).
Proof. repeat split. Qed.

(** ** The title rules (C2) *)

(** C2, as stated, fails at the empty title: it breaks the minimum length,
    yet [validate] without the required flag returns it in the attribute
    set. *)
Lemma C2_empty_title_accepted :
  ¬ matches_title_rule []
  ∧ validate {[ "title" := VString [] ]} VUndefined
    = Normal {[ "title" := VString [] ]}.
Proof. split; [|reflexivity]. intros [H _]. cbn in H. lia. Qed.

(** C2, amended.  For a string title: one the rule accepts is returned in
    the attribute set; a non-empty one is rejected by the first check it
    fails, in the order too short, too long, format; the empty one counts as
    absent, so it is reported missing when the required flag is set and
    returned otherwise. *)
Theorem C2_validate_string_title
    (props : gmap string jsval) (s : jsstring) (required : jsval) :
  get props "title" = VString s →
  (matches_title_rule s →
     validate props required = Normal {[ "title" := VString s ]})
  ∧ (s ≠ [] → (length s < 2)%nat →
     validate props required = Thrown title_too_short)
  ∧ ((55 < length s)%nat →
     validate props required = Thrown title_too_long)
  ∧ ((2 ≤ length s ≤ 55)%nat → ¬ Forall title_char s →
     validate props required = Thrown title_bad_format)
  ∧ (s = [] →
     validate props required =
       if truthy required then Thrown missing_title
       else Normal {[ "title" := VString [] ]}).
Proof.
  intros Hs. rewrite validate_unfold, Hs, validateProp_title_string.
  repeat split.
  - intros [Hlen Hall]. apply forallb_word_char in Hall.
    destruct (decide (s = [])) as [->|]; [cbn in Hlen; lia|].
    repeat case_decide; try lia. by rewrite Hall.
  - intros Hne Hlen. by rewrite !decide_False, decide_True by done.
  - intros Hlen.
    rewrite decide_False by (intros ->; cbn in Hlen; lia).
    rewrite decide_False by lia. by rewrite decide_True.
  - intros Hlen Hall.
    rewrite decide_False by (intros ->; cbn in Hlen; lia).
    rewrite !decide_False by lia.
    destruct (forallb word_char s) eqn:F; [|done].
    by apply forallb_word_char in F.
  - intros ->. rewrite decide_True by done. by destruct (truthy required).
Qed.

(** C2, amended, at the title "!": it is too short and ill-formed, and only
    the length is reported. *)
Lemma C2_validate_string_title_witness :
  validate {[ "title" := VString (js "!") ]} VUndefined
  = Thrown title_too_short.
Proof.
  assert (Hs : get {[ "title" := VString (js "!") ]} "title"
               = VString (js "!")) by reflexivity.
  apply (C2_validate_string_title _ (js "!") VUndefined Hs).
  - discriminate.
  - vm_compute. lia.
Defined.

(** ** The attribute set [validate] returns (C10) *)

(** C10.  When [validate] returns, the object it returns has the keys of the
    validation table and no other, each mapped to what [props] holds for it;
    [title] is there even when [props] has none, so [patch] with no
    attributes sends a property set that has a [title] key with the value
    [undefined]. *)
Theorem C10_validate_returns_known_keys
    (props safeProps : gmap string jsval) (required : jsval) :
  validate props required = Normal safeProps →
  dom safeProps = list_to_set (map fst VALIDATION_INFO)
  ∧ dom safeProps = {[ "title" ]}
  ∧ (∀ k, k ∈ dom safeProps → safeProps !! k = Some (get props k))
  ∧ (props !! "title" = None → safeProps !! "title" = Some VUndefined)
  ∧ ∀ self,
      Bubble_patch self ∅
      = Cypher Q_patch
          {[ "title" := PVal (title self);
             "props" := PObj {[ "title" := VUndefined ]} ]}
          (patch_callback self ∅).
Proof.
  intros H. apply validate_Normal in H as [-> _].
  rewrite dom_singleton_L. split_and!.
  - cbn. set_solver.
  - done.
  - intros k Hk. apply elem_of_singleton in Hk as ->.
    by rewrite lookup_singleton_eq.
  - intros Hnone. rewrite lookup_singleton_eq. unfold get. by rewrite Hnone.
  - reflexivity.
Qed.

(** C10 at the empty attribute set, as [patch] validates it. *)
Lemma C10_validate_returns_known_keys_witness :
  dom ({[ "title" := VUndefined ]} : gmap string jsval) = {[ "title" ]}
  ∧ ({[ "title" := VUndefined ]} : gmap string jsval) !! "title"
    = Some VUndefined.
Proof.
  assert (H : validate ∅ VUndefined = Normal {[ "title" := VUndefined ]})
    by reflexivity.
  pose proof (C10_validate_returns_known_keys ∅ _ VUndefined H)
    as (_ & Hdom & _ & Hundef & _).
  split; [exact Hdom | apply Hundef; reflexivity].
Defined.

(** ** get (C4) *)

(** C4, as stated, fails on the class of the error: with no row, [get]
    calls back with a plain [Error], not with an error of a class named
    NotFoundError. *)
Lemma C4_not_found_is_plain_error :
  ∃ e, get_callback (VString (js "Nope")) (Success []) = Ret (CbErr e)
       ∧ error_name e = "Error"
       ∧ error_name e ≠ "NotFoundError".
Proof.
  eexists. split; [reflexivity|]. split; [reflexivity | discriminate].
Qed.

(** C4, amended.  [get] sends one statement with the title as parameter.  It
    calls back with a plain [Error] whose message is "No such bubble with
    title: <title>" exactly when the store answers with no row; with a row or
    more it calls back with a Bubble around the node of the first row; an
    error of the store is handed on as it is. *)
Theorem C4_get_callback (t : jsval) :
  let not_found := Error (js "No such bubble with title: " ++ ToString t) in
  Bubble_get t = Cypher Q_get {[ "title" := PVal t ]} (get_callback t)
  ∧ error_name not_found = "Error"
  ∧ (∀ r, get_callback t r = Ret (CbErr not_found) ↔ r = Success [])
  ∧ (∀ r0 rest, get_callback t (Success (r0 :: rest))
                = Ret (CbOk (new_Bubble (col_bubble r0))))
  ∧ (∀ err, get_callback t (Failure err) = Ret (CbErr (StoreError err))).
Proof.
  intros not_found. split_and!; try reflexivity.
  intros [err|[|r0 rest]]; cbn; split; intros H; try done.
Qed.

(** ** Store errors in create and patch (C5) *)

Lemma isConstraintViolation_spec (err : store_error) :
  isConstraintViolation err = true
  ↔ ∃ msg, err = ClientError "Neo.ClientError.Schema.ConstraintViolation" msg.
Proof.
  destruct err as [code msg|code msg|code msg|msg]; cbn.
  - rewrite bool_decide_eq_true. split.
    + intros ->. by exists msg.
    + by intros (msg' & [= -> _]).
  - split; [done | by intros (? & ?)].
  - split; [done | by intros (? & ?)].
  - split; [done | by intros (? & ?)].
Qed.

(** C5, as stated, fails on the text of the message: the title is put
    between the quotation marks U+2018 and U+2019, not between
    apostrophes. *)
Lemma C5_message_has_typographic_quotes :
  create_callback {[ "title" := VString (js "Alpha") ]}
    (Failure (ClientError "Neo.ClientError.Schema.ConstraintViolation" []))
  = Ret (CbErr (ValidationError
                  (js "The title " ++ [8216%N] ++ js "Alpha" ++ [8217%N]
                   ++ js " is taken.")))
  ∧ js "The title " ++ [8216%N] ++ js "Alpha" ++ [8217%N] ++ js " is taken."
    ≠ js "The title 'Alpha' is taken.".
Proof. split; [reflexivity | discriminate]. Qed.

(** C5, amended.  [create] and [patch], once [validate] has let the
    attributes through, hand the answer of the store to their callbacks;
    there an error of the store becomes a ValidationError exactly when it is
    a client error whose code is the constraint violation; its message is
    "The title ", U+2018, the title of the attributes, U+2019, " is taken.".
    Every other error is handed on as it is.  Neither operation sends a
    second statement. *)
Theorem C5_store_error_translation
    (self : Bubble) (props : gmap string jsval) (err : store_error) :
  let taken :=
    ValidationError (js "The title " ++ [8216%N] ++ ToString (get props "title")
                     ++ [8217%N] ++ js " is taken.") in
  (isConstraintViolation err = true
   ↔ ∃ msg, err = ClientError "Neo.ClientError.Schema.ConstraintViolation" msg)
  ∧ create_callback props (Failure err)
    = Ret (CbErr (if isConstraintViolation err then taken else StoreError err))
  ∧ patch_callback self props (Failure err)
    = Ret (self,
           CbErr (if isConstraintViolation err then taken else StoreError err))
  ∧ (∀ answers, (round_trips answers (Bubble_create props) ≤ 1)%nat)
  ∧ (∀ answers, (round_trips answers (Bubble_patch self props) ≤ 1)%nat)
  ∧ (∀ (answers : ∀ q, response (row q)) safeProps,
       validate props VUndefined = Normal safeProps →
       answers Q_create = Failure err →
       respond answers (Bubble_create props)
       = Normal (CbErr (if isConstraintViolation err then taken
                        else StoreError err)))
  ∧ (∀ (answers : ∀ q, response (row q)) safeProps,
       validate props VUndefined = Normal safeProps →
       answers Q_patch = Failure err →
       respond answers (Bubble_patch self props)
       = Normal (self,
                 CbErr (if isConstraintViolation err then taken
                        else StoreError err))).
Proof.
  intros taken. split_and!.
  - apply isConstraintViolation_spec.
  - reflexivity.
  - reflexivity.
  - intros answers. unfold Bubble_create.
    destruct (validate props VUndefined); cbn; [|lia].
    destruct (answers Q_create) as [e|[|r0 rest]]; cbn; lia.
  - intros answers. unfold Bubble_patch.
    destruct (validate props VUndefined); cbn; [|lia].
    destruct (answers Q_patch) as [e|[|r0 rest]]; cbn; lia.
  - intros answers safeProps Hv Ha. unfold Bubble_create.
    rewrite Hv. cbn [respond]. rewrite Ha. reflexivity.
  - intros answers safeProps Hv Ha. unfold Bubble_patch.
    rewrite Hv. cbn [respond]. rewrite Ha. reflexivity.
Qed.

(** C5, amended, for [create] and [patch] of "Alpha" against a store that
    answers every statement with the constraint violation, and against one
    that answers with a failed round trip. *)
Lemma C5_store_error_translation_witness :
  respond (λ q, Failure (ClientError
                           "Neo.ClientError.Schema.ConstraintViolation" []))
          (Bubble_create {[ "title" := VString (js "Alpha") ]})
  = Normal (CbErr (ValidationError
                     (js "The title " ++ [8216%N] ++ js "Alpha" ++ [8217%N]
                      ++ js " is taken.")))
  ∧ respond (λ q, Failure (TransportError (js "socket hang up")))
            (Bubble_patch (new_Bubble alpha)
                          {[ "title" := VString (js "Alpha") ]})
    = Normal (new_Bubble alpha,
              CbErr (StoreError (TransportError (js "socket hang up")))).
Proof.
  assert (Hv : validate {[ "title" := VString (js "Alpha") ]} VUndefined
               = Normal {[ "title" := VString (js "Alpha") ]}) by reflexivity.
  split.
  - pose proof (C5_store_error_translation (new_Bubble alpha)
                  {[ "title" := VString (js "Alpha") ]}
                  (ClientError "Neo.ClientError.Schema.ConstraintViolation" []))
      as H.
    cbv zeta in H. destruct H as (_ & _ & _ & _ & _ & Hcreate & _).
    exact (Hcreate (λ q, Failure (ClientError
                      "Neo.ClientError.Schema.ConstraintViolation" []))
                   _ Hv eq_refl).
  - pose proof (C5_store_error_translation (new_Bubble alpha)
                  {[ "title" := VString (js "Alpha") ]}
                  (TransportError (js "socket hang up")))
      as H.
    cbv zeta in H. destruct H as (_ & _ & _ & _ & _ & _ & Hpatch).
    exact (Hpatch (λ q, Failure (TransportError (js "socket hang up")))
                  _ Hv eq_refl).
Defined.

(** ** patch and the node it holds (C6) *)

(** C6.  When the statement of [patch] matches no node, the callback gets an
    [Error] whose message starts with "Bubble has been deleted" and the
    Bubble keeps the node it had; when it returns a row, the Bubble holds the
    node of that row from then on. *)
Theorem C6_patch_snapshot
    (self : Bubble) (props safeProps : gmap string jsval)
    (answers : ∀ q, response (row q)) :
  validate props VUndefined = Normal safeProps →
  (answers Q_patch = Success [] →
     respond answers (Bubble_patch self props)
     = Normal (self,
               CbErr (Error (js "Bubble has been deleted" ++ js "! Title: "
                             ++ ToString (title self)))))
  ∧ (∀ r0 rest, answers Q_patch = Success (r0 :: rest) →
     respond answers (Bubble_patch self props)
     = Normal (new_Bubble (col_bubble r0), CbOk tt))
  ∧ (∀ message, error_name (Error message) = "Error").
Proof.
  intros Hv. unfold Bubble_patch. rewrite Hv. cbn [respond].
  split_and!.
  - by intros ->.
  - by intros r0 rest ->.
  - done.
Qed.

(** C6 for a patch of "Alpha" that finds the node gone. *)
Lemma C6_patch_snapshot_witness :
  let self := new_Bubble {| _id := 7;
                            properties := {[ "title" := VString (js "Alpha") ]} |} in
  respond (λ q, Success []) (Bubble_patch self {[ "title" := VString (js "Beta") ]})
  = Normal (self, CbErr (Error (js "Bubble has been deleted! Title: Alpha"))).
Proof.
  intros self.
  assert (Hv : validate {[ "title" := VString (js "Beta") ]} VUndefined
               = Normal {[ "title" := VString (js "Beta") ]}) by reflexivity.
  exact (proj1 (C6_patch_snapshot self _ _ (λ q, Success []) Hv) eq_refl).
Defined.

(** ** getRelatedToAndOthers (C7) *)

Section Partition.

Variable bubble : Bubble.

(** The loop appends to its two accumulators the rows it keeps, in order. *)
Lemma partition_rows_acc (results : list other_row) (relatedTo others : list Bubble) :
  partition_rows bubble results relatedTo others
  = (relatedTo
       ++ map row_bubble (filter (λ r, ¬ own_row bubble r ∧ (0 < col_count_rel r)%N) results),
     others
       ++ map row_bubble (filter (λ r, ¬ own_row bubble r ∧ ¬ (0 < col_count_rel r)%N) results)).
Proof.
  revert relatedTo others.
  induction results as [|r rest IH]; intros relatedTo others; cbn [partition_rows].
  { by rewrite !app_nil_r. }
  rewrite !filter_cons. unfold strict_eq, truthy_num.
  destruct (decide (title bubble = title (new_Bubble (col_other r)))) as [Heq|Hne].
  - rewrite bool_decide_eq_true_2 by done.
    rewrite !decide_False by (intros [Hown _]; apply Hown; done).
    apply IH.
  - rewrite bool_decide_eq_false_2 by done.
    destruct (N.eqb_spec (col_count_rel r) 0) as [Hz|Hnz]; cbn [negb].
    + rewrite decide_False by (intros [_ H]; lia).
      rewrite decide_True by (split; [intros H; apply Hne; done | lia]).
      rewrite IH. cbn [map]. by rewrite <- app_assoc.
    + rewrite decide_True by (split; [intros H; apply Hne; done | lia]).
      rewrite decide_False by (intros [_ H]; lia).
      rewrite IH. cbn [map]. by rewrite <- app_assoc.
Qed.

Lemma filter_split_perm (results : list other_row) :
  filter (λ r, ¬ own_row bubble r ∧ (0 < col_count_rel r)%N) results
  ++ filter (λ r, ¬ own_row bubble r ∧ ¬ (0 < col_count_rel r)%N) results
  ≡ₚ filter (λ r, ¬ own_row bubble r) results.
Proof.
  induction results as [|r rest IH]; [done|].
  rewrite !filter_cons.
  destruct (decide (¬ own_row bubble r)) as [Hn|Hn].
  - destruct (decide (0 < col_count_rel r)%N) as [Hc|Hc].
    + rewrite decide_True, decide_False by tauto. cbn. by rewrite IH.
    + rewrite decide_False, decide_True by tauto.
      rewrite <- Permutation_middle. by rewrite IH.
  - rewrite !decide_False by tauto. done.
Qed.

Lemma same_node_same_row (results : list other_row) (r1 r2 : other_row) :
  NoDup (map col_other results) →
  r1 ∈ results → r2 ∈ results → col_other r1 = col_other r2 → r1 = r2.
Proof.
  induction results as [|r rest IH]; intros Hnd H1 H2 Heq.
  { by apply elem_of_nil in H1. }
  cbn in Hnd. apply NoDup_cons in Hnd as [Hnot Hnd].
  apply elem_of_cons in H1 as [->|H1]; apply elem_of_cons in H2 as [->|H2].
  - done.
  - exfalso. apply Hnot. rewrite Heq. by apply list_elem_of_fmap_2.
  - exfalso. apply Hnot. rewrite <- Heq. by apply list_elem_of_fmap_2.
  - by apply IH.
Qed.

(** C7.  [getRelatedToAndOthers] sends one statement and, when the store
    answers it with rows, calls back with two lists made by going through
    the rows in order: a row whose node has the title of the bubble is
    skipped, a row whose count is above zero gives a Bubble of [relatedTo],
    any other row a Bubble of [others].  The two lists together hold the
    rows that are not the bubble's own, once each; when the store returns
    each node in one row, no Bubble is in both lists. *)
Theorem C7_partition_rows (results : list other_row) :
  ∃ relatedTo others,
    getRelatedToAndOthers_callback bubble (Success results)
    = Ret (CbOk (relatedTo, others))
    ∧ (∀ answers : ∀ q, response (row q),
         answers Q_getRelatedToAndOthers = Success results →
         respond answers (Bubble_getRelatedToAndOthers bubble)
         = Normal (CbOk (relatedTo, others)))
    ∧ relatedTo
      = map row_bubble (filter (λ r, ¬ own_row bubble r ∧ (0 < col_count_rel r)%N) results)
    ∧ others
      = map row_bubble (filter (λ r, ¬ own_row bubble r ∧ ¬ (0 < col_count_rel r)%N) results)
    ∧ relatedTo ++ others ≡ₚ map row_bubble (filter (λ r, ¬ own_row bubble r) results)
    ∧ (NoDup (map col_other results) →
       ∀ b, ¬ (b ∈ relatedTo ∧ b ∈ others)).
Proof.
  eexists _, _. split_and!.
  - cbn. by rewrite partition_rows_acc.
  - intros answers Ha. unfold Bubble_getRelatedToAndOthers.
    cbn [respond]. rewrite Ha. cbn. by rewrite partition_rows_acc.
  - reflexivity.
  - reflexivity.
  - cbn [app]. rewrite <- map_app. by rewrite filter_split_perm.
  - intros Hnd b [H1 H2]. cbn [app] in H1, H2.
    apply list_elem_of_fmap in H1 as (r1 & -> & H1).
    apply list_elem_of_fmap in H2 as (r2 & Heq & H2).
    apply list_elem_of_filter in H1 as [[_ Hpos] H1].
    apply list_elem_of_filter in H2 as [[_ Hzero] H2].
    assert (r1 = r2) as ->.
    { apply (same_node_same_row results); try done.
      unfold row_bubble in Heq. by injection Heq. }
    done.
Qed.

End Partition.

(** C7 seen from "Alpha", with "Beta" related: the row of "Alpha" is skipped
    and "Beta" is in [relatedTo] only. *)
Lemma C7_partition_rows_witness :
  respond (λ q, match q return response (row q) with
                | Q_getRelatedToAndOthers =>
                    Success [ {| col_other := alpha; col_count_rel := 0 |};
                              {| col_other := beta; col_count_rel := 1 |} ]
                | Q_patch | Q_get | Q_getAll | Q_create => Success []
                | Q_del | Q_relate | Q_unfollow => Success []
                end)
          (Bubble_getRelatedToAndOthers (new_Bubble alpha))
  = Normal (CbOk ([new_Bubble beta], []))
  ∧ ¬ (new_Bubble beta ∈ [new_Bubble beta] ∧ new_Bubble beta ∈ @nil Bubble).
Proof.
  destruct (C7_partition_rows (new_Bubble alpha)
              [ {| col_other := alpha; col_count_rel := 0 |};
                {| col_other := beta; col_count_rel := 1 |} ])
    as (relatedTo & others & _ & Hop & -> & -> & _ & Hdisj).
  split; [exact (Hop _ eq_refl)|].
  apply Hdisj. cbn [map col_other].
  apply NoDup_cons. split; [|apply NoDup_singleton].
  rewrite list_elem_of_singleton. discriminate.
Defined.

(** ** One round trip per operation *)

Lemma run_final {A} (m : action A) (g : graph) : final m → fst (run m g) = g.
Proof. by destruct m. Qed.

Lemma run_single {A} (m : action A) (g : graph) :
  single m →
  fst (run m g) = match sent m with
                  | Some (q, params) => fst (cypher g q params)
                  | None => g
                  end.
Proof.
  destruct m as [a|e|q params k]; cbn [single sent]; intros H; [done..|].
  cbn [run]. destruct (cypher g q params) as [g' r]. cbn [fst].
  by apply run_final.
Qed.

Lemma forward_err_final {R} (r : response R) : final (forward_err r).
Proof. by destruct r. Qed.

Lemma single_create props : single (Bubble_create props).
Proof.
  unfold Bubble_create. destruct (validate props VUndefined); [|done].
  intros [err|[|r0 rest]]; done.
Qed.

Lemma single_patch self props : single (Bubble_patch self props).
Proof.
  unfold Bubble_patch. destruct (validate props VUndefined); [|done].
  intros [err|[|r0 rest]]; done.
Qed.

Lemma single_del self : single (Bubble_del self).
Proof. intros r. apply forward_err_final. Qed.

Lemma single_relate self other : single (Bubble_relate self other).
Proof. intros r. apply forward_err_final. Qed.

Lemma single_unfollow self other : single (Bubble_unfollow self other).
Proof. intros r. apply forward_err_final. Qed.

(** ** The titles in the store (C3) *)

Lemma set_props_title (props : gmap string jsval) (n : node) :
  properties (set_props props n) !! "title"
  = set_prop (props !! "title") (properties n !! "title").
Proof.
  cbn. rewrite lookup_merge.
  by destruct (props !! "title"), (properties n !! "title").
Qed.

Lemma set_props_title_ok (props : gmap string jsval) (n : node) (s : jsstring) :
  properties (set_props props n) !! "title" = Some (VString s) →
  props !! "title" = Some (VString s)
  ∨ properties n !! "title" = Some (VString s).
Proof.
  rewrite set_props_title.
  destruct (props !! "title") as [[| |b|s']|]; cbn; intros H;
    try discriminate; auto.
Qed.

Lemma cypher_titles_ok (g : graph) (q : query) (params : gmap string param) :
  titles_ok g → props_ok params → titles_ok (fst (cypher g q params)).
Proof.
  intros Hg Hp. destruct q; cbn [cypher].
  - (* patch *)
    destruct (param_value params "title") as [t|]; [|done].
    destruct (param_map params "props") as [props|] eqn:Eprops; [|done].
    case_decide; [done|]. intros n s Hin Ht Hne. cbn in Hin.
    apply list_elem_of_fmap in Hin as (m & -> & Hm).
    destruct (decide (has_title t m)); [|by eapply Hg].
    apply set_props_title_ok in Ht as [Ht|Ht]; [by eapply Hp | by eapply Hg].
  - (* del *)
    destruct (param_value params "title") as [t|]; [|done].
    intros n s Hin. cbn in Hin. apply list_elem_of_filter in Hin as [_ Hin].
    by apply Hg.
  - (* relate *)
    destruct (param_value params "thisTitle"), (param_value params "otherTitle");
      done.
  - (* unfollow *)
    destruct (param_value params "thisTitle"), (param_value params "otherTitle");
      done.
  - by destruct (param_value params "thisTitle").
  - by destruct (param_value params "title").
  - done.
  - (* create *)
    destruct (param_map params "props") as [props|] eqn:Eprops; [|done].
    case_decide; [done|]. intros n s Hin Ht Hne. cbn in Hin.
    apply elem_of_app in Hin as [Hin|Hin]; [by eapply Hg|].
    apply list_elem_of_singleton in Hin as ->.
    apply set_props_title_ok in Ht as [Ht|Ht]; [by eapply Hp|].
    cbn in Ht. by rewrite lookup_empty in Ht.
Qed.

(** What [create] and [patch] send has passed [validate]. *)
Lemma create_props_ok (props : gmap string jsval) q params :
  sent (Bubble_create props) = Some (q, params) → props_ok params.
Proof.
  unfold Bubble_create.
  destruct (validate props VUndefined) as [safeProps|e] eqn:Hv; [|done].
  intros [= <- <-] sp s Hsp Ht Hne.
  apply validate_Normal in Hv as [-> Hv].
  unfold param_map in Hsp. rewrite lookup_singleton_eq in Hsp.
  injection Hsp as <-. rewrite lookup_singleton_eq in Ht.
  injection Ht as Ht. by apply Hv.
Qed.

Lemma patch_props_ok (self : Bubble) (props : gmap string jsval) q params :
  sent (Bubble_patch self props) = Some (q, params) → props_ok params.
Proof.
  unfold Bubble_patch.
  destruct (validate props VUndefined) as [safeProps|e] eqn:Hv; [|done].
  intros [= <- <-] sp s Hsp Ht Hne.
  apply validate_Normal in Hv as [-> Hv].
  unfold param_map in Hsp.
  rewrite lookup_insert_ne, lookup_singleton_eq in Hsp by done.
  injection Hsp as <-. rewrite lookup_singleton_eq in Ht.
  injection Ht as Ht. by apply Hv.
Qed.

Lemma no_props_ok (params : gmap string param) :
  params !! "props" = None → props_ok params.
Proof. intros H props s Hp. unfold param_map in Hp. by rewrite H in Hp. Qed.

Lemma run_titles_ok {A} (m : action A) (g : graph) :
  single m →
  (∀ q params, sent m = Some (q, params) → props_ok params) →
  titles_ok g → titles_ok (fst (run m g)).
Proof.
  intros Hs Hp Hg. rewrite run_single by done.
  destruct (sent m) as [[q params]|]; [|done].
  apply cypher_titles_ok; [done|]. by eapply Hp.
Qed.

Lemma two_bubbles_created :
  fst (run (bind (Bubble_create {[ "title" := VString (js "Alpha") ]})
                 (λ _, Bubble_create {[ "title" := VString (js "Beta") ]}))
           empty_graph)
  = two_bubbles.
Proof. reflexivity. Qed.

Lemma two_bubbles_titles_ok : titles_ok two_bubbles.
Proof.
  intros n s Hin Ht _. cbn in Hin.
  apply elem_of_cons in Hin as [->|Hin];
    [|apply list_elem_of_singleton in Hin as ->];
    cbn in Ht; rewrite lookup_singleton_eq in Ht; injection Ht as <-;
    (split; [cbn; lia | by apply forallb_word_char]).
Qed.

(** C3, as stated, fails for [patch] with an empty title: [validate] takes
    the empty string for an absent value, the statement carries it, and the
    node of "Alpha" ends with the title "". *)
Lemma C3_patch_stores_empty_title :
  ¬ matches_title_rule []
  ∧ sent (Bubble_patch (new_Bubble alpha) {[ "title" := VString [] ]})
    = Some (Q_patch, {[ "title" := PVal (VString (js "Alpha"));
                        "props" := PObj {[ "title" := VString [] ]} ]})
  ∧ nodes (fst (run (Bubble_patch (new_Bubble alpha)
                                  {[ "title" := VString [] ]})
                    two_bubbles))
    = [ {| _id := 0; properties := {[ "title" := VString [] ]} |}; beta ].
Proof.
  split_and!; [|reflexivity..]. intros [H _]. cbn in H. lia.
Qed.

(** C3, amended.  A title that is a non-empty string reaches the store from
    [create] or [patch] only if it has 2 to 55 code units, all of them
    letters, digits or underscores: it holds of the property set either one
    sends, and every operation that changes the store keeps it true of the
    nodes in the store.  [patch] sends a title that [validate] takes for
    absent ([undefined], [null], the empty string) as it is. *)
Theorem C3_titles_invariant
    (g : graph) (self other : Bubble) (props : gmap string jsval) :
  titles_ok g →
  (∀ q params, sent (Bubble_create props) = Some (q, params) → props_ok params)
  ∧ (∀ q params,
       sent (Bubble_patch self props) = Some (q, params) → props_ok params)
  ∧ titles_ok (fst (run (Bubble_create props) g))
  ∧ titles_ok (fst (run (Bubble_patch self props) g))
  ∧ titles_ok (fst (run (Bubble_del self) g))
  ∧ titles_ok (fst (run (Bubble_relate self other) g))
  ∧ titles_ok (fst (run (Bubble_unfollow self other) g))
  ∧ (∀ v, truthy v = false →
       sent (Bubble_patch self {[ "title" := v ]})
       = Some (Q_patch, {[ "title" := PVal (title self);
                           "props" := PObj {[ "title" := v ]} ]})).
Proof.
  intros Hg. split_and!.
  - apply create_props_ok.
  - apply patch_props_ok.
  - apply run_titles_ok; [apply single_create | apply create_props_ok | done].
  - apply run_titles_ok; [apply single_patch | apply patch_props_ok | done].
  - apply run_titles_ok; [apply single_del | | done].
    intros q params [= <- <-]. by apply no_props_ok.
  - apply run_titles_ok; [apply single_relate | | done].
    intros q params [= <- <-]. by apply no_props_ok.
  - apply run_titles_ok; [apply single_unfollow | | done].
    intros q params [= <- <-]. by apply no_props_ok.
  - intros v Hv. unfold Bubble_patch.
    rewrite validate_unfold, validateProp_title.
    assert (Hget : get ({[ "title" := v ]} : gmap string jsval) "title" = v).
    { unfold get. by rewrite lookup_singleton_eq. }
    rewrite Hget, Hv. cbn [negb truthy]. done.
Qed.

(** C3, amended, for a patch of "Alpha" to "Gamma_3" in the store of the two
    bubbles. *)
Lemma C3_titles_invariant_witness :
  titles_ok (fst (run (Bubble_patch (new_Bubble alpha)
                                    {[ "title" := VString (js "Gamma_3") ]})
                      two_bubbles)).
Proof.
  exact (proj1 (proj2 (proj2 (proj2
    (C3_titles_invariant two_bubbles (new_Bubble alpha) (new_Bubble beta)
       {[ "title" := VString (js "Gamma_3") ]} two_bubbles_titles_ok))))).
Defined.

(** ** relate (C8) *)

Section Relate.

Implicit Types (rs ps : list (Z * Z)) (e : Z * Z).

Lemma merge_rel_elem rs e e' : e' ∈ merge_rel rs e ↔ e' ∈ rs ∨ e' = e.
Proof.
  unfold merge_rel. case_decide as Hin.
  - split; [by left | by intros [?| ->]].
  - rewrite elem_of_app, list_elem_of_singleton. done.
Qed.

Lemma foldl_merge_rel_elem rs ps e :
  e ∈ foldl merge_rel rs ps ↔ e ∈ rs ∨ e ∈ ps.
Proof.
  revert rs. induction ps as [|p ps IH]; intros rs; cbn [foldl].
  - rewrite elem_of_nil. tauto.
  - rewrite IH, merge_rel_elem, elem_of_cons. tauto.
Qed.

(** MERGE leaves the relationships alone when every pair it binds is
    related already. *)
Lemma foldl_merge_rel_present rs ps :
  (∀ e, e ∈ ps → e ∈ rs) → foldl merge_rel rs ps = rs.
Proof.
  revert rs. induction ps as [|p ps IH]; intros rs H; cbn [foldl]; [done|].
  assert (Hp : p ∈ rs) by (apply H; left).
  unfold merge_rel at 2. rewrite decide_True by done.
  apply IH. intros e He. apply H. by right.
Qed.

Lemma foldl_merge_rel_twice rs ps :
  foldl merge_rel (foldl merge_rel rs ps) ps = foldl merge_rel rs ps.
Proof.
  apply foldl_merge_rel_present. intros e He.
  apply foldl_merge_rel_elem. by right.
Qed.

Lemma count_app rs rs' e :
  length (filter (λ x, x = e) (rs ++ rs'))
  = (length (filter (λ x, x = e) rs) + length (filter (λ x, x = e) rs'))%nat.
Proof. by rewrite filter_app, length_app. Qed.

Lemma count_absent rs e : e ∉ rs → length (filter (λ x, x = e) rs) = 0%nat.
Proof.
  induction rs as [|r rs IH]; intros H; [done|].
  rewrite not_elem_of_cons in H. destruct H as [Hne Hnot].
  rewrite filter_cons, decide_False by done. by apply IH.
Qed.

Lemma count_present rs e : e ∈ rs → (1 ≤ length (filter (λ x, x = e) rs))%nat.
Proof.
  induction rs as [|r rs IH]; intros H; [by apply elem_of_nil in H|].
  rewrite filter_cons. case_decide; cbn; [lia|].
  apply elem_of_cons in H as [->|H]; [done | by apply IH].
Qed.

(** The statement of [relate], once its two titles are values the driver
    sends. *)
Lemma cypher_relate (g : graph) (t o : jsval) :
  t ≠ VUndefined → o ≠ VUndefined →
  cypher g Q_relate {[ "thisTitle" := PVal t; "otherTitle" := PVal o ]}
  = ({| nodes := nodes g;
        rels := foldl merge_rel (rels g)
                  (pairs (filter (has_title t) (nodes g))
                         (filter (has_title o) (nodes g)));
        next_id := next_id g |},
     Success []).
Proof.
  intros Ht Ho. cbn [cypher]. unfold param_value.
  rewrite lookup_insert_eq.
  rewrite lookup_insert_ne, lookup_singleton_eq by done.
  by destruct t, o.
Qed.

Lemma run_relate (g : graph) (self other : Bubble) :
  title self ≠ VUndefined → title other ≠ VUndefined →
  run (Bubble_relate self other) g
  = ({| nodes := nodes g;
        rels := foldl merge_rel (rels g)
                  (pairs (filter (has_title (title self)) (nodes g))
                         (filter (has_title (title other)) (nodes g)));
        next_id := next_id g |},
     Normal (CbOk tt)).
Proof.
  intros Ht Ho. unfold Bubble_relate. cbn [run].
  by rewrite cypher_relate.
Qed.

(** Relating twice is relating once, whatever the store holds. *)
Lemma relate_twice (g : graph) (self other : Bubble) :
  title self ≠ VUndefined → title other ≠ VUndefined →
  run (Bubble_relate self other) (fst (run (Bubble_relate self other) g))
  = run (Bubble_relate self other) g.
Proof.
  intros Ht Ho. rewrite !run_relate by done. cbn [fst nodes rels next_id].
  by rewrite foldl_merge_rel_twice.
Qed.

(** C8.  When the titles of two bubbles each match one node of the store and
    the store holds at most one [related] relationship from the first node
    to the second, [relate] called twice leaves exactly one; the second call
    changes nothing, and neither does the first when the relationship was
    there. *)
Theorem C8_relate_idempotent (g : graph) (self other : Bubble) (a b : node) :
  title self ≠ VUndefined → title other ≠ VUndefined →
  filter (has_title (title self)) (nodes g) = [a] →
  filter (has_title (title other)) (nodes g) = [b] →
  (count_rel g (_id a) (_id b) ≤ 1)%nat →
  let once := run (Bubble_relate self other) g in
  let twice := run (Bubble_relate self other) (fst once) in
  snd once = Normal (CbOk tt)
  ∧ snd twice = Normal (CbOk tt)
  ∧ count_rel (fst once) (_id a) (_id b) = 1%nat
  ∧ count_rel (fst twice) (_id a) (_id b) = 1%nat
  ∧ fst twice = fst once
  ∧ ((_id a, _id b) ∈ rels g → fst once = g).
Proof.
  intros Ht Ho Ha Hb Hcount once twice.
  assert (Honce : once
    = ({| nodes := nodes g; rels := merge_rel (rels g) (_id a, _id b);
          next_id := next_id g |}, Normal (CbOk tt))).
  { unfold once. rewrite run_relate, Ha, Hb by done. done. }
  assert (Htwice : twice = once).
  { unfold twice, once. by apply relate_twice. }
  assert (Hone : count_rel (fst once) (_id a) (_id b) = 1%nat).
  { rewrite Honce. unfold count_rel in *. cbn [fst rels]. unfold merge_rel.
    case_decide as Hin.
    - apply count_present in Hin. lia.
    - rewrite count_app, count_absent by done. cbn.
      by rewrite decide_True. }
  split_and!.
  - by rewrite Honce.
  - by rewrite Htwice, Honce.
  - done.
  - by rewrite Htwice.
  - by rewrite Htwice.
  - intros Hin. rewrite Honce. cbn [fst]. unfold merge_rel.
    rewrite decide_True by done. by destruct g.
Qed.

End Relate.

(** C8 for "Alpha" and "Beta", not related before. *)
Lemma C8_relate_idempotent_witness :
  count_rel (fst (run (Bubble_relate (new_Bubble alpha) (new_Bubble beta))
                      (fst (run (Bubble_relate (new_Bubble alpha)
                                               (new_Bubble beta))
                                two_bubbles))))
            0 1
  = 1%nat.
Proof.
  assert (Ha : filter (has_title (title (new_Bubble alpha))) (nodes two_bubbles)
               = [alpha]) by reflexivity.
  assert (Hb : filter (has_title (title (new_Bubble beta))) (nodes two_bubbles)
               = [beta]) by reflexivity.
  assert (Hc : (count_rel two_bubbles (_id alpha) (_id beta) ≤ 1)%nat)
    by (vm_compute; lia).
  assert (Hta : title (new_Bubble alpha) ≠ VUndefined) by discriminate.
  assert (Htb : title (new_Bubble beta) ≠ VUndefined) by discriminate.
  exact (proj1 (proj2 (proj2 (proj2
    (C8_relate_idempotent two_bubbles (new_Bubble alpha) (new_Bubble beta)
       alpha beta Hta Htb Ha Hb Hc))))).
Defined.

(** ** unfollow and the unrelate route (C9) *)

Lemma filter_all {A} (P : A → Prop) `{∀ x, Decision (P x)} (l : list A) :
  (∀ x, x ∈ l → P x) → filter P l = l.
Proof.
  induction l as [|x l IH]; intros Hall; [done|].
  rewrite filter_cons, decide_True by (apply Hall; left).
  f_equal. apply IH. intros y Hy. apply Hall. by right.
Qed.

Lemma cypher_unfollow (g : graph) (t o : jsval) :
  t ≠ VUndefined → o ≠ VUndefined →
  cypher g Q_unfollow {[ "thisTitle" := PVal t; "otherTitle" := PVal o ]}
  = ({| nodes := nodes g;
        rels := filter (λ e, e ∉ pairs (filter (has_title t) (nodes g))
                                       (filter (has_title o) (nodes g)))
                       (rels g);
        next_id := next_id g |},
     Success []).
Proof.
  intros Ht Ho. cbn [cypher]. unfold param_value.
  rewrite lookup_insert_eq.
  rewrite lookup_insert_ne, lookup_singleton_eq by done.
  by destruct t, o.
Qed.

(** The method the model does have, [unfollow]: it removes the relationship
    from the one bubble to the other, and it ends without an error whether
    there was one or not. *)
Lemma unfollow_removes (g : graph) (self other : Bubble) (a b : node) :
  title self ≠ VUndefined → title other ≠ VUndefined →
  filter (has_title (title self)) (nodes g) = [a] →
  filter (has_title (title other)) (nodes g) = [b] →
  snd (run (Bubble_unfollow self other) g) = Normal (CbOk tt)
  ∧ count_rel (fst (run (Bubble_unfollow self other) g)) (_id a) (_id b) = 0%nat
  ∧ ((_id a, _id b) ∉ rels g → fst (run (Bubble_unfollow self other) g) = g).
Proof.
  intros Ht Ho Ha Hb. unfold Bubble_unfollow. cbn [run].
  rewrite cypher_unfollow, Ha, Hb by done. cbn [run fst snd forward_err].
  split_and!; [done| |].
  - unfold count_rel. cbn [rels]. apply count_absent.
    intros Hin. apply list_elem_of_filter in Hin as [Hnot _].
    apply Hnot. cbn. left.
  - intros Hnot. rewrite filter_all; [by destruct g|].
    intros e He Hin. cbn in Hin. apply list_elem_of_singleton in Hin as ->. done.
Qed.

(** The sibling route, which calls a method the model has. *)
Lemma relate_route_relates (encodeURIComponent : jsstring → jsstring) :
  run (Routes.relate encodeURIComponent
         {| Routes.params_title := VString (js "Alpha");
            Routes.body := {[ "otherTitle" := VString (js "Beta") ]} |})
      two_bubbles
  = (related_bubbles,
     Normal (Routes.Redirect (js "/bubbles/" ++ encodeURIComponent (js "Alpha"))))
  ∧ statements (Routes.relate encodeURIComponent
                  {| Routes.params_title := VString (js "Alpha");
                     Routes.body := {[ "otherTitle" := VString (js "Beta") ]} |})
               two_bubbles
    = [Q_get; Q_get; Q_relate].
Proof. split; reflexivity. Qed.

Lemma cypher_get_frame (g : graph) (params : gmap string param) :
  fst (cypher g Q_get params) = g.
Proof. cbn. by destruct (param_value params "title"). Qed.

(** Whatever the request and the store, the unrelate route leaves the store
    as it is and never gets to its redirect. *)
Lemma unrelate_route_changes_nothing
    (encodeURIComponent : jsstring → jsstring) (req : Routes.request)
    (g : graph) :
  fst (run (Routes.unrelate encodeURIComponent req) g) = g
  ∧ ∀ url, snd (run (Routes.unrelate encodeURIComponent req) g)
           ≠ Normal (Routes.Redirect url).
Proof.
  unfold Routes.unrelate, Bubble_get. cbn [bind run].
  destruct (cypher g Q_get _) as [g1 r1] eqn:E1.
  apply (f_equal fst) in E1. rewrite cypher_get_frame in E1.
  cbn [fst] in E1. subst g1.
  destruct r1 as [err|[|r0 rest]]; cbn [get_callback bind run fst snd];
    [done..|].
  destruct (cypher g Q_get _) as [g2 r2] eqn:E2.
  apply (f_equal fst) in E2. rewrite cypher_get_frame in E2.
  cbn [fst] in E2. subst g2.
  destruct r2 as [err|[|r0' rest']]; cbn [get_callback bind run fst snd]; done.
Qed.

(** C9.  The specification has the caller invoke [unrelate] to remove the
    relationship.  The model defines the method under the name [unfollow];
    the route calls [bubble.unrelate], which [Bubble.prototype] does not
    have.  With "Alpha" related to "Beta", the route fetches both bubbles
    and then throws a TypeError; the two statements of [get] are all it
    sends, and the relationship stays; the route changes the store for no
    request.  [unfollow], had it been called, sends its statement and removes
    the relationship. *)
Theorem C9_unrelate_route_throws (encodeURIComponent : jsstring → jsstring) :
  (∀ req g, fst (run (Routes.unrelate encodeURIComponent req) g) = g)
  ∧ assoc "unrelate" Bubble_prototype = None
  ∧ assoc "unfollow" Bubble_prototype = Some M_unfollow
  ∧ run (Routes.unrelate encodeURIComponent
           {| Routes.params_title := VString (js "Alpha");
              Routes.body := {[ "otherTitle" := VString (js "Beta") ]} |})
        related_bubbles
    = (related_bubbles,
       Thrown (TypeError (js "bubble.unrelate is not a function")))
  ∧ statements (Routes.unrelate encodeURIComponent
                  {| Routes.params_title := VString (js "Alpha");
                     Routes.body := {[ "otherTitle" := VString (js "Beta") ]} |})
               related_bubbles
    = [Q_get; Q_get]
  ∧ count_rel related_bubbles 0 1 = 1%nat
  ∧ run (Bubble_unfollow (new_Bubble alpha) (new_Bubble beta)) related_bubbles
    = (two_bubbles, Normal (CbOk tt))
  ∧ statements (Bubble_unfollow (new_Bubble alpha) (new_Bubble beta))
               related_bubbles
    = [Q_unfollow].
Proof.
  split_and!; try reflexivity.
  intros req g. apply unrelate_route_changes_nothing.
Qed.

(** * The rest of the model and of the routes *)

(** ** What the store answers to [get] *)

Lemma cypher_get_rows (g : graph) (t : jsval) :
  t ≠ VUndefined →
  cypher g Q_get {[ "title" := PVal t ]}
  = (g, Success (map (λ n, {| col_bubble := n |})
                     (filter (has_title t) (nodes g)))).
Proof.
  intros Ht. cbn [cypher]. unfold param_value.
  rewrite lookup_singleton_eq. by destruct t.
Qed.

Lemma run_get (g : graph) (t : jsval) :
  t ≠ VUndefined →
  run (Bubble_get t) g
  = (g, Normal match filter (has_title t) (nodes g) with
               | [] => CbErr (Error (js "No such bubble with title: "
                                     ++ ToString t))
               | n :: _ => CbOk (new_Bubble n)
               end).
Proof.
  intros Ht. unfold Bubble_get. cbn [run]. rewrite cypher_get_rows by done.
  by destruct (filter (has_title t) (nodes g)).
Qed.

Lemma filter_none {A} (P : A → Prop) `{∀ x, Decision (P x)} (l : list A) :
  filter P (filter (λ x, ¬ P x) l) = [].
Proof.
  induction l as [|x l IH]; [done|].
  rewrite (filter_cons (λ x, ¬ P x)). case_decide as Hx; [|done].
  rewrite filter_cons, decide_False by done. done.
Qed.

(** ** del *)

Lemma run_del (g : graph) (self : Bubble) :
  title self ≠ VUndefined →
  run (Bubble_del self) g
  = ({| nodes := filter (λ n, ¬ has_title (title self) n) (nodes g);
        rels :=
          filter (λ e, ¬ (fst e ∈ map _id (filter (has_title (title self))
                                                    (nodes g))
                          ∨ snd e ∈ map _id (filter (has_title (title self))
                                                      (nodes g))))
                 (rels g);
        next_id := next_id g |},
     Normal (CbOk tt)).
Proof.
  intros Ht. unfold Bubble_del. cbn [run cypher]. unfold param_value.
  rewrite lookup_singleton_eq. by destruct (title self).
Qed.

(** X1.  [del] ends without an error whether a node has the title or not.
    It takes out of the store the nodes that have the title of the bubble
    and the relationships that start or end at one of them, and nothing
    else; with no such node the store stays as it is.  [get] with that
    title then fails with "No such bubble with title: <title>". *)
Theorem del_removes_node_and_its_relationships (g : graph) (self : Bubble) :
  title self ≠ VUndefined →
  let g' := fst (run (Bubble_del self) g) in
  let gone := map _id (filter (has_title (title self)) (nodes g)) in
  snd (run (Bubble_del self) g) = Normal (CbOk tt)
  ∧ (∀ n, n ∈ nodes g' ↔ n ∈ nodes g ∧ ¬ has_title (title self) n)
  ∧ (∀ e, e ∈ rels g' ↔ e ∈ rels g ∧ ¬ (fst e ∈ gone ∨ snd e ∈ gone))
  ∧ (filter (has_title (title self)) (nodes g) = [] → g' = g)
  ∧ run (Bubble_get (title self)) g'
    = (g', Normal (CbErr (Error (js "No such bubble with title: "
                                 ++ ToString (title self))))).
Proof.
  intros Ht g' gone. unfold g'. rewrite run_del by done. cbn [fst snd].
  split_and!.
  - done.
  - intros n. cbn [nodes]. rewrite list_elem_of_filter. tauto.
  - intros e. cbn [rels]. rewrite list_elem_of_filter. fold gone. tauto.
  - intros Hnone. rewrite Hnone. cbn [map].
    rewrite !filter_all.
    + by destruct g.
    + intros e _ [H|H]; by apply elem_of_nil in H.
    + intros n Hn Hhas.
      assert (Hin : n ∈ filter (has_title (title self)) (nodes g))
        by (by apply list_elem_of_filter).
      rewrite Hnone in Hin. by apply elem_of_nil in Hin.
  - rewrite run_get by done. cbn [nodes]. by rewrite filter_none.
Qed.

(** X1 in the store of "Alpha" related to "Beta": deleting "Alpha" leaves
    "Beta" alone, with no relationship. *)
Lemma del_removes_node_and_its_relationships_witness :
  fst (run (Bubble_del (new_Bubble alpha)) related_bubbles)
  = {| nodes := [beta]; rels := []; next_id := 2 |}
  ∧ snd (run (Bubble_del (new_Bubble alpha)) related_bubbles)
    = Normal (CbOk tt).
Proof.
  assert (Ht : title (new_Bubble alpha) ≠ VUndefined) by discriminate.
  pose proof (del_removes_node_and_its_relationships
                related_bubbles (new_Bubble alpha) Ht) as (Hok & _).
  split; [reflexivity | exact Hok].
Defined.

(** ** unfollow *)

Lemma run_unfollow (g : graph) (self other : Bubble) :
  title self ≠ VUndefined → title other ≠ VUndefined →
  run (Bubble_unfollow self other) g
  = ({| nodes := nodes g;
        rels := filter (λ e, e ∉ pairs (filter (has_title (title self)) (nodes g))
                                       (filter (has_title (title other)) (nodes g)))
                       (rels g);
        next_id := next_id g |},
     Normal (CbOk tt)).
Proof.
  intros Ht Ho. unfold Bubble_unfollow. cbn [run].
  by rewrite cypher_unfollow.
Qed.

(** X2.  When the titles of two bubbles each match one node, [unfollow]
    removes the relationships from the first node to the second and no
    other: the nodes stay, every other relationship stays (the one in the
    opposite direction too), and the call ends without an error.  With no
    such relationship the store stays as it is, and a second call changes
    nothing. *)
Theorem unfollow_removes_one_direction
    (g : graph) (self other : Bubble) (a b : node) :
  title self ≠ VUndefined → title other ≠ VUndefined →
  filter (has_title (title self)) (nodes g) = [a] →
  filter (has_title (title other)) (nodes g) = [b] →
  let g' := fst (run (Bubble_unfollow self other) g) in
  snd (run (Bubble_unfollow self other) g) = Normal (CbOk tt)
  ∧ nodes g' = nodes g
  ∧ (∀ e, e ∈ rels g' ↔ e ∈ rels g ∧ e ≠ (_id a, _id b))
  ∧ count_rel g' (_id a) (_id b) = 0%nat
  ∧ ((_id a, _id b) ∉ rels g → g' = g)
  ∧ run (Bubble_unfollow self other) g' = (g', Normal (CbOk tt)).
Proof.
  intros Ht Ho Ha Hb g'. unfold g'.
  rewrite run_unfollow, Ha, Hb by done. cbn [fst snd nodes rels].
  assert (Hpairs : pairs [a] [b] = [(_id a, _id b)]) by reflexivity.
  rewrite Hpairs.
  assert (Hmem : ∀ e, e ∈ filter (λ e, e ∉ [(_id a, _id b)]) (rels g)
                      ↔ e ∈ rels g ∧ e ≠ (_id a, _id b)).
  { intros e. rewrite list_elem_of_filter, list_elem_of_singleton. tauto. }
  split_and!.
  - done.
  - done.
  - exact Hmem.
  - unfold count_rel. cbn [rels]. apply count_absent.
    intros Hin. apply Hmem in Hin as [_ Hne]. done.
  - intros Hnot. rewrite filter_all; [by destruct g|].
    intros e He Hin. apply list_elem_of_singleton in Hin as ->. done.
  - rewrite run_unfollow by done. cbn [nodes rels next_id].
    rewrite Ha, Hb, Hpairs. f_equal. f_equal.
    apply filter_all. intros e He. by apply list_elem_of_filter in He as [? _].
Qed.

(** X2 in the store of "Alpha" related to "Beta". *)
Lemma unfollow_removes_one_direction_witness :
  fst (run (Bubble_unfollow (new_Bubble alpha) (new_Bubble beta))
           related_bubbles)
  = two_bubbles
  ∧ count_rel (fst (run (Bubble_unfollow (new_Bubble alpha) (new_Bubble beta))
                        related_bubbles)) 0 1
    = 0%nat.
Proof.
  assert (Hta : title (new_Bubble alpha) ≠ VUndefined) by discriminate.
  assert (Htb : title (new_Bubble beta) ≠ VUndefined) by discriminate.
  assert (Ha : filter (has_title (title (new_Bubble alpha)))
                      (nodes related_bubbles) = [alpha]) by reflexivity.
  assert (Hb : filter (has_title (title (new_Bubble beta)))
                      (nodes related_bubbles) = [beta]) by reflexivity.
  pose proof (unfollow_removes_one_direction related_bubbles
                (new_Bubble alpha) (new_Bubble beta) alpha beta Hta Htb Ha Hb)
    as (_ & _ & _ & Hcount & _).
  split; [reflexivity | exact Hcount].
Defined.

(** ** create, then get *)

(** Settles [matches_title_rule] of a title that is written out. *)
Ltac title_rule := split; [cbn; lia | by apply forallb_word_char].

Lemma validate_accepts (props : gmap string jsval) (s : jsstring)
    (required : jsval) :
  get props "title" = VString s → matches_title_rule s →
  validate props required = Normal {[ "title" := VString s ]}.
Proof.
  intros Hs [Hlen Hall]. apply forallb_word_char in Hall.
  rewrite validate_unfold, Hs, validateProp_title_string.
  destruct (decide (s = [])) as [->|]; [cbn in Hlen; lia|].
  repeat case_decide; try lia. by rewrite Hall.
Qed.

Lemma merge_title_empty (s : jsstring) :
  merge set_prop ({[ "title" := VString s ]} : gmap string jsval) ∅
  = {[ "title" := VString s ]}.
Proof.
  apply map_eq. intros k. rewrite lookup_merge, lookup_empty.
  destruct (decide (k = "title")) as [->|Hk].
  - by rewrite lookup_singleton_eq.
  - by rewrite lookup_singleton_ne.
Qed.

Lemma merge_title_insert (s : jsstring) (old : gmap string jsval) :
  merge set_prop ({[ "title" := VString s ]} : gmap string jsval) old
  = <[ "title" := VString s ]> old.
Proof.
  apply map_eq. intros k. rewrite lookup_merge.
  destruct (decide (k = "title")) as [->|Hk].
  - rewrite lookup_singleton_eq, lookup_insert_eq. by destruct (old !! "title").
  - rewrite lookup_singleton_ne, lookup_insert_ne by done.
    by destruct (old !! k).
Qed.

Lemma run_create (g : graph) (props : gmap string jsval) (s : jsstring) :
  get props "title" = VString s → matches_title_rule s →
  run (Bubble_create props) g
  = if decide (title_clash (created g s) (nodes g)) then
      (g, Normal (CbErr (ValidationError (taken_message s))))
    else
      ({| nodes := nodes g ++ [created g s]; rels := rels g;
          next_id := next_id g + 1 |},
       Normal (CbOk (new_Bubble (created g s)))).
Proof.
  intros Hs Hrule. unfold Bubble_create.
  rewrite (validate_accepts props s) by done.
  cbn [run cypher]. unfold param_map. rewrite lookup_singleton_eq.
  unfold set_props. cbn [_id properties]. rewrite merge_title_empty.
  fold (created g s). case_decide.
  - cbn. unfold title_taken, taken_message, lsquo, rsquo. by rewrite Hs.
  - done.
Qed.

(** X3.  [create] with a title that obeys the rule and that no node of the
    store has adds one node with that title and the next free identity,
    leaves the relationships as they are and calls back with a Bubble around
    the new node; [get] with the title then returns that same Bubble. *)
Theorem create_then_get (g : graph) (props : gmap string jsval) (s : jsstring) :
  get props "title" = VString s → matches_title_rule s →
  filter (has_title (VString s)) (nodes g) = [] →
  let g' := {| nodes := nodes g ++ [created g s]; rels := rels g;
               next_id := next_id g + 1 |} in
  run (Bubble_create props) g = (g', Normal (CbOk (new_Bubble (created g s))))
  ∧ title (new_Bubble (created g s)) = VString s
  ∧ run (Bubble_get (VString s)) g'
    = (g', Normal (CbOk (new_Bubble (created g s)))).
Proof.
  intros Hs Hrule Hfree g'. split_and!.
  - rewrite (run_create g props s) by done.
    rewrite decide_False; [done|].
    intros (t & Ht & Hex). cbn in Ht. rewrite lookup_singleton_eq in Ht.
    injection Ht as <-. apply Exists_exists in Hex as (m & Hm & _ & Htitle).
    assert (Hin : m ∈ filter (has_title (VString s)) (nodes g)).
    { apply list_elem_of_filter. split; [|done]. by split. }
    rewrite Hfree in Hin. by apply elem_of_nil in Hin.
  - unfold title, get. cbn. by rewrite lookup_singleton_eq.
  - rewrite run_get by done. unfold g'. cbn [nodes].
    rewrite filter_app, Hfree. cbn [app].
    rewrite filter_cons, decide_True; [done|].
    split; [done|]. cbn. by rewrite lookup_singleton_eq.
Qed.

(** X3 for "Gamma" in the store of the two bubbles. *)
Lemma create_then_get_witness :
  snd (run (Bubble_get (VString (js "Gamma")))
           (fst (run (Bubble_create {[ "title" := VString (js "Gamma") ]})
                     two_bubbles)))
  = Normal (CbOk (new_Bubble (created two_bubbles (js "Gamma")))).
Proof.
  assert (Hs : get {[ "title" := VString (js "Gamma") ]} "title"
               = VString (js "Gamma")) by reflexivity.
  assert (Hrule : matches_title_rule (js "Gamma")) by title_rule.
  assert (Hfree : filter (has_title (VString (js "Gamma"))) (nodes two_bubbles)
                  = []) by reflexivity.
  pose proof (create_then_get two_bubbles _ (js "Gamma") Hs Hrule Hfree)
    as (Hc & _ & Hg).
  rewrite Hc. cbn [fst]. rewrite Hg. reflexivity.
Defined.

(** X4.  [create] with a title that obeys the rule and that a node of the
    store has already calls back with the ValidationError "The title
    <title> is taken." (the title between U+2018 and U+2019) and leaves the
    store as it was. *)
Theorem create_taken_title
    (g : graph) (props : gmap string jsval) (s : jsstring) (m : node) :
  get props "title" = VString s → matches_title_rule s →
  m ∈ nodes g → properties m !! "title" = Some (VString s) →
  _id m ≠ next_id g →
  run (Bubble_create props) g
  = (g, Normal (CbErr (ValidationError (taken_message s)))).
Proof.
  intros Hs Hrule Hm Htitle Hid.
  rewrite (run_create g props s) by done.
  rewrite decide_True; [done|].
  exists (VString s). split.
  - cbn. by rewrite lookup_singleton_eq.
  - apply Exists_exists. exists m. by repeat split.
Qed.

(** X4 for a second "Alpha" in the store of the two bubbles. *)
Lemma create_taken_title_witness :
  run (Bubble_create {[ "title" := VString (js "Alpha") ]}) two_bubbles
  = (two_bubbles,
     Normal (CbErr (ValidationError (taken_message (js "Alpha"))))).
Proof.
  assert (Hs : get {[ "title" := VString (js "Alpha") ]} "title"
               = VString (js "Alpha")) by reflexivity.
  assert (Hrule : matches_title_rule (js "Alpha")) by title_rule.
  assert (Hm : alpha ∈ nodes two_bubbles) by (cbn; left).
  assert (Htitle : properties alpha !! "title" = Some (VString (js "Alpha")))
    by reflexivity.
  assert (Hid : _id alpha ≠ next_id two_bubbles) by discriminate.
  exact (create_taken_title two_bubbles _ (js "Alpha") alpha
           Hs Hrule Hm Htitle Hid).
Defined.

(** ** patch against the store *)

Section Update.

Context {A : Type} (P Q : A → Prop) `{∀ x, Decision (P x)}
        `{∀ x, Decision (Q x)} (f : A → A).

Local Abbreviation update := (λ x : A, if decide (P x) then f x else x).

Lemma map_update_none (l : list A) : filter P l = [] → map update l = l.
Proof.
  induction l as [|x l IH]; [done|].
  rewrite filter_cons. cbn [map].
  destruct (decide (P x)); [done|].
  intros Hnone. by rewrite IH.
Qed.

Lemma filter_cons_nil (R : A → Prop) `{∀ x, Decision (R x)} (x : A) (l : list A) :
  filter R (x :: l) = [] → ¬ R x ∧ filter R l = [].
Proof. rewrite filter_cons. by case_decide. Qed.

(** The element that [P] picks moves where [f] puts it. *)
Lemma filter_map_update_new (l : list A) (a : A) :
  filter P l = [a] → filter Q l = [] → Q (f a) →
  filter Q (map update l) = [f a].
Proof.
  induction l as [|x l IH]; [done|].
  intros HP HQ Hfa. apply filter_cons_nil in HQ as [HnQ HQ].
  rewrite filter_cons in HP. cbn [map].
  destruct (decide (P x)) as [HPx|HPx].
  - injection HP as -> HP. rewrite filter_cons, decide_True by done.
    by rewrite map_update_none, HQ.
  - rewrite filter_cons, decide_False by done. by apply IH.
Qed.

Lemma filter_map_update_old (l : list A) (a : A) :
  filter P l = [a] → ¬ P (f a) → filter P (map update l) = [].
Proof.
  induction l as [|x l IH]; [done|].
  intros HP Hfa. rewrite filter_cons in HP. cbn [map].
  destruct (decide (P x)) as [HPx|HPx].
  - injection HP as -> HP. rewrite filter_cons, decide_False by done.
    by rewrite map_update_none.
  - rewrite filter_cons, decide_False by done. by apply IH.
Qed.

Lemma elem_of_map_update (l : list A) (y : A) :
  y ∈ map update l → (∃ x, x ∈ l ∧ P x ∧ y = f x) ∨ (y ∈ l ∧ ¬ P y).
Proof.
  intros Hy. apply list_elem_of_fmap in Hy as (x & -> & Hx).
  case_decide; [left; eauto | right; eauto].
Qed.

End Update.


Lemma set_props_renamed (n : node) (s : jsstring) :
  set_props {[ "title" := VString s ]} n = renamed n s.
Proof. unfold set_props, renamed. by rewrite merge_title_insert. Qed.

Lemma has_title_renamed (n : node) (s : jsstring) (t : jsval) :
  has_title t (renamed n s) ↔ t = VString s.
Proof.
  unfold has_title, renamed. cbn [properties]. rewrite lookup_insert_eq.
  split.
  - by intros [_ [= <-]].
  - by intros ->.
Qed.

(** [patch] against the store, for a title that [validate] lets through. *)
Lemma run_patch (g : graph) (self : Bubble) (props : gmap string jsval)
    (s : jsstring) :
  title self ≠ VUndefined →
  get props "title" = VString s → matches_title_rule s →
  run (Bubble_patch self props) g
  = if decide (Exists
                 (λ n, title_clash
                         (if decide (has_title (title self) n)
                          then set_props {[ "title" := VString s ]} n else n)
                         (map (λ n, if decide (has_title (title self) n)
                                    then set_props {[ "title" := VString s ]} n
                                    else n)
                              (nodes g)))
                 (filter (has_title (title self)) (nodes g)))
    then (g, Normal (self, CbErr (ValidationError (taken_message s))))
    else
      ({| nodes := map (λ n, if decide (has_title (title self) n)
                             then set_props {[ "title" := VString s ]} n
                             else n)
                       (nodes g);
          rels := rels g; next_id := next_id g |},
       Normal match filter (has_title (title self)) (nodes g) with
              | [] => (self,
                       CbErr (Error (js "Bubble has been deleted! Title: "
                                     ++ ToString (title self))))
              | n :: _ =>
                  (new_Bubble
                     (if decide (has_title (title self) n)
                      then set_props {[ "title" := VString s ]} n else n),
                   CbOk tt)
              end).
Proof.
  intros Ht Hs Hrule. unfold Bubble_patch.
  rewrite (validate_accepts props s) by done.
  cbn [run cypher]. unfold param_value, param_map.
  rewrite lookup_insert_eq.
  rewrite lookup_insert_ne, lookup_singleton_eq by done.
  replace (match title self with
           | VUndefined => None
           | _ => Some (title self)
           end) with (Some (title self)) by (by destruct (title self)).
  case_decide.
  - cbn. unfold title_taken, taken_message, lsquo, rsquo. by rewrite Hs.
  - by destruct (filter (has_title (title self)) (nodes g)).
Qed.

Lemma map_id_update (t : jsval) (props : gmap string jsval) (l : list node) :
  map _id (map (λ n, if decide (has_title t n) then set_props props n else n) l)
  = map _id l.
Proof.
  induction l as [|n l IH]; [done|]. cbn [map]. rewrite IH.
  by case_decide.
Qed.

Lemma filter_singleton_in {A} (P : A → Prop) `{∀ x, Decision (P x)}
    (l : list A) (a : A) :
  filter P l = [a] → P a ∧ a ∈ l.
Proof.
  intros Hf. apply (list_elem_of_filter P l a). rewrite Hf. by left.
Qed.

Lemma filter_singleton_eq {A} (P : A → Prop) `{∀ x, Decision (P x)}
    (l : list A) (a x : A) :
  filter P l = [a] → x ∈ l → P x → x = a.
Proof.
  intros Hf Hx HP.
  assert (Hin : x ∈ filter P l) by (by apply list_elem_of_filter).
  rewrite Hf in Hin. by apply list_elem_of_singleton in Hin.
Qed.

Lemma filter_nil_elem {A} (P : A → Prop) `{∀ x, Decision (P x)}
    (l : list A) (x : A) :
  filter P l = [] → x ∈ l → ¬ P x.
Proof.
  intros Hf Hx HP.
  assert (Hin : x ∈ filter P l) by (by apply list_elem_of_filter).
  rewrite Hf in Hin. by apply elem_of_nil in Hin.
Qed.

(** [patch] to a free title, against the store. *)
Lemma run_patch_rename
    (g : graph) (self : Bubble) (props : gmap string jsval) (s : jsstring)
    (a : node) :
  title self ≠ VUndefined →
  get props "title" = VString s → matches_title_rule s →
  filter (has_title (title self)) (nodes g) = [a] →
  filter (has_title (VString s)) (nodes g) = [] →
  run (Bubble_patch self props) g
  = ({| nodes := map (λ n, if decide (has_title (title self) n)
                           then set_props {[ "title" := VString s ]} n
                           else n)
                     (nodes g);
        rels := rels g; next_id := next_id g |},
     Normal (new_Bubble (renamed a s), CbOk tt)).
Proof.
  intros Ht Hs Hrule Ha Hfree.
  assert (Hmem : has_title (title self) a).
  { by apply (filter_singleton_in _ (nodes g) a Ha). }
  rewrite (run_patch g self props s) by done.
  rewrite decide_False.
  - by rewrite Ha, decide_True, set_props_renamed by done.
  - rewrite Ha. intros Hex.
    apply Exists_cons in Hex as [Hc|Hc]; [|by apply Exists_nil in Hc].
    rewrite decide_True in Hc by done.
    destruct Hc as (t & Htitle & Hex).
    rewrite set_props_renamed in Htitle, Hex.
    cbn in Htitle. rewrite lookup_insert_eq in Htitle. injection Htitle as <-.
    apply Exists_exists in Hex as (m & Hm & Hid & Hmt).
    apply (elem_of_map_update (has_title (title self))) in Hm
      as [(x & Hx & HPx & ->)|[Hm HnP]].
    + assert (x = a) as -> by (by apply (filter_singleton_eq _ _ a x Ha)).
      apply Hid. by rewrite set_props_renamed.
    + by apply (filter_nil_elem _ _ m Hfree Hm).
Qed.

(** X5.  [patch] of a bubble whose title matches one node, to a title that
    obeys the rule and that no node has: the node keeps its identity and
    gets the new title, the other nodes and all relationships stay, and the
    Bubble holds the node as renamed.  [get] with the new title then
    returns that Bubble, and [get] with the old title fails with "No such
    bubble with title: <old title>". *)
Theorem patch_renames
    (g : graph) (self : Bubble) (props : gmap string jsval) (s : jsstring)
    (a : node) :
  title self ≠ VUndefined →
  get props "title" = VString s → matches_title_rule s →
  filter (has_title (title self)) (nodes g) = [a] →
  filter (has_title (VString s)) (nodes g) = [] →
  ∃ g',
    run (Bubble_patch self props) g
    = (g', Normal (new_Bubble (renamed a s), CbOk tt))
    ∧ map _id (nodes g') = map _id (nodes g)
    ∧ rels g' = rels g
    ∧ (∀ n, n ∈ nodes g → ¬ has_title (title self) n → n ∈ nodes g')
    ∧ filter (has_title (VString s)) (nodes g') = [renamed a s]
    ∧ run (Bubble_get (VString s)) g'
      = (g', Normal (CbOk (new_Bubble (renamed a s))))
    ∧ run (Bubble_get (title self)) g'
      = (g', Normal (CbErr (no_such_bubble (title self)))).
Proof.
  intros Ht Hs Hrule Ha Hfree.
  assert (Hmem : has_title (title self) a).
  { by apply (filter_singleton_in _ (nodes g) a Ha). }
  assert (Hdiff : title self ≠ VString s).
  { intros Heq. rewrite Heq in Hmem, Ha.
    rewrite Ha in Hfree. discriminate. }
  eexists. split_and!.
  - by apply run_patch_rename.
  - cbn [nodes]. apply map_id_update.
  - done.
  - intros n Hn HnP. cbn [nodes]. apply list_elem_of_fmap.
    exists n. by rewrite decide_False.
  - cbn [nodes]. rewrite <- set_props_renamed.
    apply (filter_map_update_new (has_title (title self))); [done..|].
    rewrite set_props_renamed. by apply has_title_renamed.
  - rewrite run_get by done. cbn [nodes].
    rewrite (filter_map_update_new (has_title (title self))
               (has_title (VString s)) _ (nodes g) a); try done.
    + by rewrite set_props_renamed.
    + rewrite set_props_renamed. by apply has_title_renamed.
  - rewrite run_get by done. cbn [nodes].
    rewrite (filter_map_update_old (has_title (title self)) _ (nodes g) a);
      try done.
    rewrite set_props_renamed. intros Hh. by apply has_title_renamed in Hh.
Qed.

(** X5 for "Alpha" renamed to "Gamma" in the store of "Alpha" related to
    "Beta". *)
Lemma patch_renames_witness :
  ∃ g',
    run (Bubble_patch (new_Bubble alpha) {[ "title" := VString (js "Gamma") ]})
        related_bubbles
    = (g', Normal (new_Bubble (renamed alpha (js "Gamma")), CbOk tt))
    ∧ rels g' = [(0, 1)%Z]
    ∧ run (Bubble_get (VString (js "Alpha"))) g'
      = (g', Normal (CbErr (no_such_bubble (VString (js "Alpha"))))).
Proof.
  assert (Ht : title (new_Bubble alpha) ≠ VUndefined) by discriminate.
  assert (Hs : get {[ "title" := VString (js "Gamma") ]} "title"
               = VString (js "Gamma")) by reflexivity.
  assert (Hrule : matches_title_rule (js "Gamma")) by title_rule.
  assert (Ha : filter (has_title (title (new_Bubble alpha)))
                      (nodes related_bubbles) = [alpha]) by reflexivity.
  assert (Hfree : filter (has_title (VString (js "Gamma")))
                         (nodes related_bubbles) = []) by reflexivity.
  destruct (patch_renames related_bubbles (new_Bubble alpha) _ (js "Gamma")
              alpha Ht Hs Hrule Ha Hfree)
    as (g' & Hrun & _ & Hrels & _ & _ & _ & Hold).
  exists g'. split; [exact Hrun|]. split; [exact Hrels | exact Hold].
Defined.

(** [patch] to a title another node has, against the store. *)
Lemma run_patch_clash
    (g : graph) (self : Bubble) (props : gmap string jsval) (s : jsstring)
    (a m : node) :
  title self ≠ VUndefined →
  get props "title" = VString s → matches_title_rule s →
  filter (has_title (title self)) (nodes g) = [a] →
  m ∈ nodes g → properties m !! "title" = Some (VString s) →
  _id m ≠ _id a →
  run (Bubble_patch self props) g
  = (g, Normal (self, CbErr (ValidationError (taken_message s)))).
Proof.
  intros Ht Hs Hrule Ha Hm Hmt Hid.
  assert (Hmem : has_title (title self) a).
  { by apply (filter_singleton_in _ (nodes g) a Ha). }
  rewrite (run_patch g self props s) by done.
  rewrite decide_True; [done|].
  rewrite Ha. apply Exists_cons. left.
  rewrite decide_True by done.
  exists (VString s). split.
  - rewrite set_props_renamed. cbn. by rewrite lookup_insert_eq.
  - apply Exists_exists.
    destruct (decide (has_title (title self) m)) as [HPm|HPm].
    + assert (m = a) as -> by (by apply (filter_singleton_eq _ _ a m Ha)).
      done.
    + exists m. split_and!; [|by rewrite set_props_renamed|done].
      apply list_elem_of_fmap. exists m. by rewrite decide_False.
Qed.

(** X6.  [patch] of a bubble whose title matches one node, to a title that
    obeys the rule and that another node has: the callback gets the
    ValidationError "The title <title> is taken." (the title between U+2018
    and U+2019), the store stays as it was and the Bubble keeps its node. *)
Theorem patch_taken_title
    (g : graph) (self : Bubble) (props : gmap string jsval) (s : jsstring)
    (a m : node) :
  title self ≠ VUndefined →
  get props "title" = VString s → matches_title_rule s →
  filter (has_title (title self)) (nodes g) = [a] →
  m ∈ nodes g → properties m !! "title" = Some (VString s) →
  _id m ≠ _id a →
  run (Bubble_patch self props) g
  = (g, Normal (self, CbErr (ValidationError (taken_message s)))).
Proof. apply run_patch_clash. Qed.

(** X6 for "Alpha" patched to "Beta" in the store of the two bubbles. *)
Lemma patch_taken_title_witness :
  run (Bubble_patch (new_Bubble alpha) {[ "title" := VString (js "Beta") ]})
      two_bubbles
  = (two_bubbles,
     Normal (new_Bubble alpha,
             CbErr (ValidationError (taken_message (js "Beta"))))).
Proof.
  assert (Ht : title (new_Bubble alpha) ≠ VUndefined) by discriminate.
  assert (Hs : get {[ "title" := VString (js "Beta") ]} "title"
               = VString (js "Beta")) by reflexivity.
  assert (Hrule : matches_title_rule (js "Beta")) by title_rule.
  assert (Ha : filter (has_title (title (new_Bubble alpha)))
                      (nodes two_bubbles) = [alpha]) by reflexivity.
  assert (Hm : beta ∈ nodes two_bubbles) by (cbn; right; left).
  assert (Hmt : properties beta !! "title" = Some (VString (js "Beta")))
    by reflexivity.
  assert (Hid : _id beta ≠ _id alpha) by discriminate.
  exact (patch_taken_title two_bubbles (new_Bubble alpha) _ (js "Beta")
           alpha beta Ht Hs Hrule Ha Hm Hmt Hid).
Defined.

Lemma set_props_undefined (n : node) :
  set_props {[ "title" := VUndefined ]} n = n.
Proof.
  destruct n as [i ps]. unfold set_props. cbn [_id properties]. f_equal.
  apply map_eq. intros k. rewrite lookup_merge.
  destruct (decide (k = "title")) as [->|Hk].
  - rewrite lookup_singleton_eq. by destruct (ps !! "title").
  - rewrite lookup_singleton_ne by done. by destruct (ps !! k).
Qed.

Lemma map_update_id (t : jsval) (l : list node) :
  map (λ n, if decide (has_title t n)
            then set_props {[ "title" := VUndefined ]} n else n) l
  = l.
Proof.
  induction l as [|n l IH]; [done|]. cbn [map]. rewrite IH.
  case_decide; [by rewrite set_props_undefined | done].
Qed.

(** X7.  [patch] with attributes that have no title, on a bubble whose
    title matches one node: the store stays as it is, the callback gets no
    error, and the Bubble holds the node as the store has it, whatever it
    held before. *)
Theorem patch_without_title_rereads
    (g : graph) (self : Bubble) (props : gmap string jsval) (a : node) :
  title self ≠ VUndefined →
  get props "title" = VUndefined →
  filter (has_title (title self)) (nodes g) = [a] →
  run (Bubble_patch self props) g = (g, Normal (new_Bubble a, CbOk tt)).
Proof.
  intros Ht Hp Ha.
  destruct (filter_singleton_in _ _ _ Ha) as [Hmem _].
  unfold Bubble_patch. rewrite validate_unfold, validateProp_title, Hp.
  cbn [truthy negb run cypher]. unfold param_value, param_map.
  rewrite lookup_insert_eq.
  rewrite lookup_insert_ne, lookup_singleton_eq by done.
  replace (match title self with
           | VUndefined => None
           | _ => Some (title self)
           end) with (Some (title self)) by (by destruct (title self)).
  rewrite map_update_id, Ha.
  rewrite decide_False.
  - cbn [map]. rewrite decide_True, set_props_undefined by done.
    cbn. by destruct g.
  - intros Hex.
    apply Exists_cons in Hex as [Hc|Hc]; [|by apply Exists_nil in Hc].
    rewrite decide_True, set_props_undefined in Hc by done.
    destruct Hc as (t & Htitle & Hex).
    apply Exists_exists in Hex as (m & Hm & Hid & Hmt).
    destruct Hmem as [Hnn Hat]. rewrite Hat in Htitle. injection Htitle as <-.
    assert (m = a) as ->.
    { apply (filter_singleton_eq _ _ a m Ha); [done|]. by split. }
    done.
Qed.

(** X7 for a Bubble of "Alpha" that holds a node without the identity the
    store gave it. *)
Lemma patch_without_title_rereads_witness :
  run (Bubble_patch
         (new_Bubble {| _id := 99;
                        properties := {[ "title" := VString (js "Alpha") ]} |})
         ∅)
      two_bubbles
  = (two_bubbles, Normal (new_Bubble alpha, CbOk tt)).
Proof.
  apply patch_without_title_rereads.
  - discriminate.
  - reflexivity.
  - reflexivity.
Defined.

(** ** getRelatedToAndOthers against the store *)

Section Listing.

Variables (g : graph) (self : Bubble) (a : node).
Hypothesis Ht : title self ≠ VUndefined.
Hypothesis Ha : filter (has_title (title self)) (nodes g) = [a].

(** The row the statement returns for a node of the store. *)
Let row_of (other : node) : other_row :=
  {| col_other := other;
     col_count_rel :=
       N.of_nat (length (filter (λ e, fst e ∈ [_id a] ∧ snd e = _id other)
                                (rels g))) |}.

Lemma count_rel_pos (other : node) :
  (0 < col_count_rel (row_of other))%N ↔ (_id a, _id other) ∈ rels g.
Proof.
  cbn [row_of col_count_rel].
  induction (rels g) as [|e rs IH].
  { split; [cbn; lia | intros H; by apply elem_of_nil in H]. }
  rewrite filter_cons. destruct e as [x y]. cbn [fst snd].
  case_decide as He.
  - destruct He as [Hx ->]. apply list_elem_of_singleton in Hx as ->.
    cbn [length]. split; [intros _; by left | lia].
  - split.
    + intros H. right. by apply IH.
    + intros H. apply elem_of_cons in H as [[= <- <-]|Hin]; [|by apply IH].
      exfalso. apply He. split; [by left | done].
Qed.

Lemma run_getRelatedToAndOthers :
  run (Bubble_getRelatedToAndOthers self) g
  = (g, Normal (CbOk
      (map row_bubble
           (filter (λ r, ¬ own_row self r ∧ (0 < col_count_rel r)%N)
                   (map row_of (nodes g))),
       map row_bubble
           (filter (λ r, ¬ own_row self r ∧ ¬ (0 < col_count_rel r)%N)
                   (map row_of (nodes g)))))).
Proof.
  unfold Bubble_getRelatedToAndOthers. cbn [run cypher]. unfold param_value.
  rewrite lookup_singleton_eq.
  replace (match title self with
           | VUndefined => None
           | _ => Some (title self)
           end) with (Some (title self)) by (by destruct (title self)).
  rewrite Ha. cbn [map]. rewrite decide_False by done.
  cbn [run getRelatedToAndOthers_callback]. by rewrite partition_rows_acc.
Qed.

Lemma row_member (P : other_row → Prop) `{∀ r, Decision (P r)} (n : node) :
  new_Bubble n ∈ map row_bubble (filter P (map row_of (nodes g)))
  ↔ n ∈ nodes g ∧ P (row_of n).
Proof.
  rewrite list_elem_of_fmap. split.
  - intros (r & Hr & Hin). apply list_elem_of_filter in Hin as [HP Hin].
    apply list_elem_of_fmap in Hin as (o & -> & Ho).
    unfold row_bubble in Hr. cbn in Hr. injection Hr as ->. done.
  - intros [Hn HP]. exists (row_of n). split; [done|].
    apply list_elem_of_filter. split; [done|].
    apply list_elem_of_fmap. by exists n.
Qed.

(** The two lists, read off the store. *)
Lemma listing_members :
  ∃ relatedTo others,
    run (Bubble_getRelatedToAndOthers self) g
    = (g, Normal (CbOk (relatedTo, others)))
    ∧ (∀ n, new_Bubble n ∈ relatedTo
            ↔ n ∈ nodes g ∧ title (new_Bubble n) ≠ title self
              ∧ (_id a, _id n) ∈ rels g)
    ∧ (∀ n, new_Bubble n ∈ others
            ↔ n ∈ nodes g ∧ title (new_Bubble n) ≠ title self
              ∧ (_id a, _id n) ∉ rels g).
Proof.
  eexists _, _. split; [apply run_getRelatedToAndOthers|]. split.
  - intros n. rewrite row_member. unfold own_row, row_bubble.
    rewrite count_rel_pos. cbn [col_other]. tauto.
  - intros n. rewrite row_member. unfold own_row, row_bubble.
    rewrite count_rel_pos. cbn [col_other]. tauto.
Qed.

End Listing.

Lemma has_title_title (t : jsval) (n : node) :
  has_title t n → title (new_Bubble n) = t.
Proof. intros [_ H]. unfold title, get. cbn. by rewrite H. Qed.

(** X8.  [getRelatedToAndOthers] of a bubble whose title matches one node
    leaves the store as it is and calls back with two lists read off it:
    [relatedTo] holds the nodes with another title that the node of the
    bubble has a relationship to, [others] the nodes with another title that
    it has none to.  A node with the title of the bubble is in neither
    list, related to itself or not. *)
Theorem listing_reads_the_store (g : graph) (self : Bubble) (a : node) :
  title self ≠ VUndefined →
  filter (has_title (title self)) (nodes g) = [a] →
  ∃ relatedTo others,
    run (Bubble_getRelatedToAndOthers self) g
    = (g, Normal (CbOk (relatedTo, others)))
    ∧ (∀ n, new_Bubble n ∈ relatedTo
            ↔ n ∈ nodes g ∧ title (new_Bubble n) ≠ title self
              ∧ (_id a, _id n) ∈ rels g)
    ∧ (∀ n, new_Bubble n ∈ others
            ↔ n ∈ nodes g ∧ title (new_Bubble n) ≠ title self
              ∧ (_id a, _id n) ∉ rels g)
    ∧ ¬ (new_Bubble a ∈ relatedTo ∨ new_Bubble a ∈ others).
Proof.
  intros Ht Ha.
  destruct (listing_members g self a Ht Ha)
    as (relatedTo & others & Hrun & Hrel & Hoth).
  destruct (filter_singleton_in _ _ _ Ha) as [Hmem _].
  apply has_title_title in Hmem.
  exists relatedTo, others. split_and!; try done.
  intros [Hin|Hin].
  - apply Hrel in Hin as (_ & Hne & _). done.
  - apply Hoth in Hin as (_ & Hne & _). done.
Qed.

(** X8 in the store of "Alpha" related to "Beta", seen from "Alpha". *)
Lemma listing_reads_the_store_witness :
  ∃ relatedTo others,
    run (Bubble_getRelatedToAndOthers (new_Bubble alpha)) related_bubbles
    = (related_bubbles, Normal (CbOk (relatedTo, others)))
    ∧ new_Bubble beta ∈ relatedTo
    ∧ new_Bubble alpha ∉ relatedTo.
Proof.
  assert (Ht : title (new_Bubble alpha) ≠ VUndefined) by discriminate.
  assert (Ha : filter (has_title (title (new_Bubble alpha)))
                      (nodes related_bubbles) = [alpha]) by reflexivity.
  destruct (listing_reads_the_store related_bubbles (new_Bubble alpha) alpha
              Ht Ha)
    as (relatedTo & others & Hrun & Hrel & _ & Hself).
  exists relatedTo, others. split; [exact Hrun|].
  split; [|intros Hin; apply Hself; by left].
  apply Hrel. split; [cbn; right; left|]. split; [discriminate | cbn; left].
Defined.

(** X9.  After [relate] of two bubbles with different titles, each matching
    one node, [getRelatedToAndOthers] of the first lists the second in
    [relatedTo] and not in [others], and lists the first in neither. *)
Theorem relate_then_listing
    (g : graph) (self other : Bubble) (a b : node) :
  title self ≠ VUndefined → title other ≠ VUndefined →
  title other ≠ title self →
  filter (has_title (title self)) (nodes g) = [a] →
  filter (has_title (title other)) (nodes g) = [b] →
  let g' := fst (run (Bubble_relate self other) g) in
  ∃ relatedTo others,
    run (Bubble_getRelatedToAndOthers self) g'
    = (g', Normal (CbOk (relatedTo, others)))
    ∧ new_Bubble b ∈ relatedTo
    ∧ ¬ new_Bubble b ∈ others
    ∧ ¬ (new_Bubble a ∈ relatedTo ∨ new_Bubble a ∈ others).
Proof.
  intros Ht Ho Hne Ha Hb g'.
  assert (Hg' : g' = {| nodes := nodes g;
                        rels := merge_rel (rels g) (_id a, _id b);
                        next_id := next_id g |}).
  { unfold g'. rewrite run_relate, Ha, Hb by done. done. }
  assert (Ha' : filter (has_title (title self)) (nodes g') = [a])
    by (by rewrite Hg').
  destruct (listing_members g' self a Ht Ha')
    as (relatedTo & others & Hrun & Hrel & Hoth).
  destruct (filter_singleton_in _ _ _ Ha) as [Hmema _].
  destruct (filter_singleton_in _ _ _ Hb) as [Hmemb Hinb].
  apply has_title_title in Hmema, Hmemb.
  assert (Hedge : (_id a, _id b) ∈ rels g').
  { rewrite Hg'. cbn [rels]. apply merge_rel_elem. by right. }
  exists relatedTo, others. split_and!.
  - done.
  - apply Hrel. rewrite Hg' at 1. cbn [nodes]. rewrite Hmemb. done.
  - intros Hin. apply Hoth in Hin as (_ & _ & Hnot). done.
  - intros [Hin|Hin].
    + apply Hrel in Hin as (_ & Hn & _). done.
    + apply Hoth in Hin as (_ & Hn & _). done.
Qed.

(** X9 for "Alpha" and "Beta", not related before. *)
Lemma relate_then_listing_witness :
  ∃ relatedTo others,
    run (Bubble_getRelatedToAndOthers (new_Bubble alpha))
        (fst (run (Bubble_relate (new_Bubble alpha) (new_Bubble beta))
                  two_bubbles))
    = (fst (run (Bubble_relate (new_Bubble alpha) (new_Bubble beta))
                two_bubbles),
       Normal (CbOk (relatedTo, others)))
    ∧ new_Bubble beta ∈ relatedTo ∧ new_Bubble beta ∉ others.
Proof.
  assert (Hta : title (new_Bubble alpha) ≠ VUndefined) by discriminate.
  assert (Htb : title (new_Bubble beta) ≠ VUndefined) by discriminate.
  assert (Hne : title (new_Bubble beta) ≠ title (new_Bubble alpha))
    by discriminate.
  assert (Ha : filter (has_title (title (new_Bubble alpha)))
                      (nodes two_bubbles) = [alpha]) by reflexivity.
  assert (Hb : filter (has_title (title (new_Bubble beta)))
                      (nodes two_bubbles) = [beta]) by reflexivity.
  destruct (relate_then_listing two_bubbles (new_Bubble alpha)
              (new_Bubble beta) alpha beta Hta Htb Hne Ha Hb)
    as (relatedTo & others & Hrun & Hin & Hnot & _).
  exists relatedTo, others. split; [exact Hrun|]. split; [exact Hin | exact Hnot].
Defined.

(** X10.  After [unfollow] of two bubbles with different titles, each
    matching one node, [getRelatedToAndOthers] of the first lists the second
    in [others] and not in [relatedTo]. *)
Theorem unfollow_then_listing
    (g : graph) (self other : Bubble) (a b : node) :
  title self ≠ VUndefined → title other ≠ VUndefined →
  title other ≠ title self →
  filter (has_title (title self)) (nodes g) = [a] →
  filter (has_title (title other)) (nodes g) = [b] →
  let g' := fst (run (Bubble_unfollow self other) g) in
  ∃ relatedTo others,
    run (Bubble_getRelatedToAndOthers self) g'
    = (g', Normal (CbOk (relatedTo, others)))
    ∧ new_Bubble b ∈ others ∧ new_Bubble b ∉ relatedTo.
Proof.
  intros Ht Ho Hne Ha Hb g'.
  assert (Hg' : g' = {| nodes := nodes g;
                        rels := filter (λ e, e ∉ [(_id a, _id b)]) (rels g);
                        next_id := next_id g |}).
  { unfold g'. rewrite run_unfollow, Ha, Hb by done. done. }
  assert (Ha' : filter (has_title (title self)) (nodes g') = [a])
    by (by rewrite Hg').
  destruct (listing_members g' self a Ht Ha')
    as (relatedTo & others & Hrun & Hrel & Hoth).
  destruct (filter_singleton_in _ _ _ Hb) as [Hmemb Hinb].
  apply has_title_title in Hmemb.
  assert (Hedge : (_id a, _id b) ∉ rels g').
  { rewrite Hg'. cbn [rels]. intros Hin.
    apply list_elem_of_filter in Hin as [Hnot _]. apply Hnot. by left. }
  exists relatedTo, others. split_and!.
  - done.
  - apply Hoth. rewrite Hg' at 1. cbn [nodes]. rewrite Hmemb. done.
  - intros Hin. apply Hrel in Hin as (_ & _ & Hin). done.
Qed.

(** X10 for "Alpha" related to "Beta". *)
Lemma unfollow_then_listing_witness :
  ∃ relatedTo others,
    run (Bubble_getRelatedToAndOthers (new_Bubble alpha))
        (fst (run (Bubble_unfollow (new_Bubble alpha) (new_Bubble beta))
                  related_bubbles))
    = (fst (run (Bubble_unfollow (new_Bubble alpha) (new_Bubble beta))
                related_bubbles),
       Normal (CbOk (relatedTo, others)))
    ∧ new_Bubble beta ∈ others ∧ new_Bubble beta ∉ relatedTo.
Proof.
  assert (Hta : title (new_Bubble alpha) ≠ VUndefined) by discriminate.
  assert (Htb : title (new_Bubble beta) ≠ VUndefined) by discriminate.
  assert (Hne : title (new_Bubble beta) ≠ title (new_Bubble alpha))
    by discriminate.
  assert (Ha : filter (has_title (title (new_Bubble alpha)))
                      (nodes related_bubbles) = [alpha]) by reflexivity.
  assert (Hb : filter (has_title (title (new_Bubble beta)))
                      (nodes related_bubbles) = [beta]) by reflexivity.
  exact (unfollow_then_listing related_bubbles (new_Bubble alpha)
           (new_Bubble beta) alpha beta Hta Htb Hne Ha Hb).
Defined.

(** ** What validate throws *)



(** A title that is present and breaks the rule is rejected, flag or no
    flag. *)
Lemma validate_rejects (props : gmap string jsval) (s : jsstring)
    (required : jsval) :
  get props "title" = VString s → s ≠ [] → ¬ matches_title_rule s →
  ∃ e, validate props required = Thrown e
       ∧ error_name e = "ValidationError".
Proof.
  intros Hs Hne Hrule.
  rewrite validate_unfold, Hs, validateProp_title_string.
  rewrite decide_False by done.
  repeat case_decide; [by eexists..|].
  destruct (forallb word_char s) eqn:F; [|by eexists].
  exfalso. apply Hrule. split; [lia|]. by apply forallb_word_char.
Qed.

(** ** Running a route *)

Lemma run_bind {A B} (m : action A) (f : A → action B) (g : graph) :
  run (bind m f) g
  = match run m g with
    | (g', Normal a) => run (f a) g'
    | (g', Thrown e) => (g', Thrown e)
    end.
Proof.
  revert g. induction m as [a|e|q params k IH]; intros g; cbn [bind run];
    [done..|].
  destruct (cypher g q params) as [g' r]. apply IH.
Qed.

Lemma statements_bind {A B} (m : action A) (f : A → action B) (g : graph) :
  statements (bind m f) g
  = statements m g
    ++ match run m g with
       | (g', Normal a) => statements (f a) g'
       | (_, Thrown _) => []
       end.
Proof.
  revert g. induction m as [a|e|q params k IH]; intros g;
    cbn [bind run statements]; [done..|].
  destruct (cypher g q params) as [g' r]. cbn [app]. by rewrite IH.
Qed.

Lemma no_clash_fresh (g : graph) (s : jsstring) :
  filter (has_title (VString s)) (nodes g) = [] →
  ¬ title_clash (created g s) (nodes g).
Proof.
  intros Hfree (t & Ht & Hex). cbn in Ht. rewrite lookup_singleton_eq in Ht.
  injection Ht as <-. apply Exists_exists in Hex as (m & Hm & _ & Htitle).
  by apply (filter_nil_elem _ _ m Hfree Hm).
Qed.

Lemma clash_taken (g : graph) (s : jsstring) (m : node) :
  m ∈ nodes g → properties m !! "title" = Some (VString s) →
  _id m ≠ next_id g →
  title_clash (created g s) (nodes g).
Proof.
  intros Hm Htitle Hid. exists (VString s). split.
  - cbn. by rewrite lookup_singleton_eq.
  - apply Exists_exists. exists m. by repeat split.
Qed.

(** ** The create route *)

Section CreateRoute.

Variable encodeURIComponent : jsstring → jsstring.
Variable URL_format : jsstring → list (string * jsval) → jsstring.

Local Abbreviation create_route :=
  (Pages.create encodeURIComponent URL_format).

(** X12.  POST /bubbles with a string title.  A title that obeys the rule
    and that no node has: the node is created and the route redirects to
    "/bubbles/" followed by the encoded title.  A title that obeys the rule
    and that a node has: the store stays as it is and the route redirects to
    the form, "/bubbles" with the title and the "is taken" message as query.
    A title that is not empty and breaks the rule: the ValidationError of
    [validate] is thrown out of the route before any statement is sent, so
    the redirect to the form with its message is not reached. *)
Theorem create_route_outcomes
    (g : graph) (req : Routes.request) (s : jsstring) :
  get (Routes.body req) "title" = VString s →
  (matches_title_rule s →
   filter (has_title (VString s)) (nodes g) = [] →
   run (create_route req) g
   = ({| nodes := nodes g ++ [created g s]; rels := rels g;
         next_id := next_id g + 1 |},
      Normal (Routes.Redirect (js "/bubbles/" ++ encodeURIComponent s))))
  ∧ (matches_title_rule s →
     ∀ m, m ∈ nodes g → properties m !! "title" = Some (VString s) →
          _id m ≠ next_id g →
     run (create_route req) g
     = (g, Normal (Routes.Redirect
                     (URL_format (js "/bubbles")
                        [ ("title", VString s);
                          ("error", VString (taken_message s)) ]))))
  ∧ (s ≠ [] → ¬ matches_title_rule s →
     ∃ e, run (create_route req) g = (g, Thrown e)
          ∧ error_name e = "ValidationError"
          ∧ statements (create_route req) g = []).
Proof.
  intros Hs.
  assert (Hget : get ({[ "title" := get (Routes.body req) "title" ]}
                        : gmap string jsval) "title" = VString s).
  { unfold get at 1. by rewrite lookup_singleton_eq. }
  split_and!.
  - intros Hrule Hfree. unfold Pages.create.
    rewrite run_bind, (run_create g _ s) by done.
    rewrite decide_False by (by apply no_clash_fresh).
    cbn [run]. unfold Routes.getBubbleURL, title, get. cbn [_node created properties].
    by rewrite lookup_singleton_eq.
  - intros Hrule m Hm Htitle Hid. unfold Pages.create.
    rewrite run_bind, (run_create g _ s) by done.
    rewrite decide_True by (by eapply clash_taken).
    cbn [run Pages.instanceof_ValidationError Pages.message_of].
    by rewrite Hs.
  - intros Hne Hrule.
    destruct (validate_rejects _ s VUndefined Hget Hne Hrule) as (e & Hv & He).
    exists e. unfold Pages.create, Bubble_create. rewrite Hv.
    cbn [bind run statements]. done.
Qed.

End CreateRoute.

(** X12 for the title "a b" in the store of the two bubbles, the two
    built-ins taken for functions that return their first argument: the
    route throws. *)
Lemma create_route_outcomes_witness :
  ∃ e, run (Pages.create (λ s, s) (λ p _, p)
              {| Routes.params_title := VUndefined;
                 Routes.body := {[ "title" := VString (js "a b") ]} |})
           two_bubbles
       = (two_bubbles, Thrown e)
       ∧ error_name e = "ValidationError".
Proof.
  assert (Hs : get (Routes.body
                      {| Routes.params_title := VUndefined;
                         Routes.body := {[ "title" := VString (js "a b") ]} |})
                   "title" = VString (js "a b")) by reflexivity.
  destruct (create_route_outcomes (λ s, s) (λ p _, p) two_bubbles _
              (js "a b") Hs)
    as (_ & _ & Hthrow).
  destruct Hthrow as (e & Hrun & He & _).
  - discriminate.
  - intros [_ Hall]. apply forallb_word_char in Hall. discriminate.
  - exists e. split; [exact Hrun | exact He].
Defined.


Lemma statements_get (t : jsval) (g : graph) :
  statements (Bubble_get t) g = [Q_get].
Proof.
  unfold Bubble_get. cbn [statements].
  destruct (cypher g Q_get _) as [g' [err|[|r0 rest]]]; done.
Qed.

Lemma title_renamed (a : node) (s : jsstring) :
  title (new_Bubble (renamed a s)) = VString s.
Proof. unfold title, get. cbn. by rewrite lookup_insert_eq. Qed.

(** ** The edit route *)

Section EditRoute.

Variable encodeURIComponent : jsstring → jsstring.
Variable URL_format : jsstring → list (string * jsval) → jsstring.

Local Abbreviation edit_route := (Pages.edit encodeURIComponent URL_format).

(** X13.  POST /bubbles/:title with a string title in the body, for a title
    in the address that matches one node.  A new title that obeys the rule
    and that no node has: the node is renamed and the route redirects to
    the page of the new title, "/bubbles/" followed by the encoded new
    title, where the old title matches nothing any more.  A new title that
    another node has: the store stays as it is and the route redirects to
    the page of the old title with the new title and the "is taken" message
    as query.  A new title that is not empty and breaks the rule: the
    ValidationError of [validate] is thrown out of the callback of [get],
    after that one statement.  And when the title in the address matches no
    node, the route ends in [next] with "No such bubble with title:
    <title>". *)
Theorem edit_route_outcomes
    (g : graph) (req : Routes.request) (s : jsstring) (a : node) :
  Routes.params_title req ≠ VUndefined →
  get (Routes.body req) "title" = VString s →
  let t := Routes.params_title req in
  (filter (has_title t) (nodes g) = [a] → matches_title_rule s →
   filter (has_title (VString s)) (nodes g) = [] →
   ∃ g', run (edit_route req) g
         = (g', Normal (Routes.Redirect
                          (js "/bubbles/" ++ encodeURIComponent s)))
         ∧ filter (has_title (VString s)) (nodes g') = [renamed a s]
         ∧ filter (has_title t) (nodes g') = []
         ∧ rels g' = rels g)
  ∧ (filter (has_title t) (nodes g) = [a] → matches_title_rule s →
     ∀ m, m ∈ nodes g → properties m !! "title" = Some (VString s) →
          _id m ≠ _id a →
     run (edit_route req) g
     = (g, Normal (Routes.Redirect
                     (URL_format
                        (js "/bubbles/" ++ encodeURIComponent (ToString t))
                        [ ("title", VString s);
                          ("error", VString (taken_message s)) ]))))
  ∧ (filter (has_title t) (nodes g) = [a] → s ≠ [] →
     ¬ matches_title_rule s →
     ∃ e, run (edit_route req) g = (g, Thrown e)
          ∧ error_name e = "ValidationError"
          ∧ statements (edit_route req) g = [Q_get])
  ∧ (filter (has_title t) (nodes g) = [] →
     run (edit_route req) g = (g, Normal (Routes.Next (no_such_bubble t)))).
Proof.
  intros Ht Hs t. split_and!.
  - intros Ha Hrule Hfree.
    destruct (filter_singleton_in _ _ _ Ha) as [Hmem _].
    pose proof (has_title_title _ _ Hmem) as Htitle.
    assert (Hdiff : t ≠ VString s).
    { intros Heq. rewrite Heq in Ha. rewrite Ha in Hfree. discriminate. }
    eexists. split_and!.
    + unfold Pages.edit. rewrite run_bind, run_get by done. fold t.
      rewrite Ha. rewrite run_bind.
      rewrite (run_patch_rename g (new_Bubble a) _ s a);
        rewrite ?Htitle; try done.
      cbn [run]. unfold Routes.getBubbleURL. by rewrite title_renamed.
    + cbn [nodes]. rewrite <- set_props_renamed.
      apply (filter_map_update_new (has_title t)); [done..|].
      rewrite set_props_renamed. by apply has_title_renamed.
    + cbn [nodes].
      apply (filter_map_update_old (has_title t) _ (nodes g) a); [done|].
      rewrite set_props_renamed. intros Hh. by apply has_title_renamed in Hh.
    + done.
  - intros Ha Hrule m Hm Hmt Hid.
    destruct (filter_singleton_in _ _ _ Ha) as [Hmem _].
    pose proof (has_title_title _ _ Hmem) as Htitle.
    unfold Pages.edit. rewrite run_bind, run_get by done. fold t.
    rewrite Ha. rewrite run_bind.
    rewrite (run_patch_clash g (new_Bubble a) _ s a m);
      rewrite ?Htitle; try done.
    cbn [run Pages.instanceof_ValidationError Pages.message_of].
    unfold Routes.getBubbleURL. by rewrite Htitle, Hs.
  - intros Ha Hne Hrule.
    destruct (validate_rejects (Routes.body req) s VUndefined Hs Hne Hrule)
      as (e & Hv & He).
    exists e. split_and!; [|done|].
    + unfold Pages.edit. rewrite run_bind, run_get by done. fold t.
      rewrite Ha. unfold Bubble_patch. rewrite Hv. done.
    + unfold Pages.edit. rewrite statements_bind, statements_get.
      rewrite run_get by done. fold t. rewrite Ha.
      unfold Bubble_patch. rewrite Hv. done.
  - intros Hnone. unfold Pages.edit. rewrite run_bind, run_get by done.
    fold t. by rewrite Hnone.
Qed.

End EditRoute.

(** X13 for "Alpha" renamed to "Gamma" in the store of "Alpha" related to
    "Beta", [encodeURIComponent] taken for the identity. *)
Lemma edit_route_outcomes_witness :
  ∃ g', run (Pages.edit (λ s, s) (λ p _, p)
               {| Routes.params_title := VString (js "Alpha");
                  Routes.body := {[ "title" := VString (js "Gamma") ]} |})
            related_bubbles
        = (g', Normal (Routes.Redirect (js "/bubbles/Gamma")))
        ∧ rels g' = [(0, 1)%Z].
Proof.
  assert (Ht : Routes.params_title
                 {| Routes.params_title := VString (js "Alpha");
                    Routes.body := {[ "title" := VString (js "Gamma") ]} |}
               ≠ VUndefined) by discriminate.
  assert (Hs : get (Routes.body
                      {| Routes.params_title := VString (js "Alpha");
                         Routes.body := {[ "title" := VString (js "Gamma") ]} |})
                   "title" = VString (js "Gamma")) by reflexivity.
  destruct (edit_route_outcomes (λ s, s) (λ p _, p) related_bubbles _
              (js "Gamma") alpha Ht Hs)
    as (Hrename & _).
  destruct Hrename as (g' & Hrun & _ & _ & Hrels).
  - reflexivity.
  - title_rule.
  - reflexivity.
  - exists g'. split; [exact Hrun | exact Hrels].
Defined.

(** ** The delete and show routes *)

(** X14.  DELETE /bubbles/:title.  When a node has the title, the route
    deletes every node that has it, with the relationships that touch them,
    and redirects to "/bubbles"; afterwards no node has the title.  When no
    node has it, the route ends in [next] with "No such bubble with title:
    <title>" and the store stays as it is. *)
Theorem del_route_outcomes (g : graph) (req : Routes.request) :
  Routes.params_title req ≠ VUndefined →
  let t := Routes.params_title req in
  (∀ a rest, filter (has_title t) (nodes g) = a :: rest →
     run (Pages.del req) g
     = (fst (run (Bubble_del (new_Bubble a)) g),
        Normal (Routes.Redirect (js "/bubbles")))
     ∧ filter (has_title t)
              (nodes (fst (run (Bubble_del (new_Bubble a)) g))) = []
     ∧ statements (Pages.del req) g = [Q_get; Q_del])
  ∧ (filter (has_title t) (nodes g) = [] →
     run (Pages.del req) g = (g, Normal (Routes.Next (no_such_bubble t)))
     ∧ statements (Pages.del req) g = [Q_get]).
Proof.
  intros Ht t. split.
  - intros a rest Ha.
    assert (Hmem : has_title t a).
    { apply (list_elem_of_filter (has_title t) (nodes g) a).
      rewrite Ha. by left. }
    pose proof (has_title_title _ _ Hmem) as Htitle.
    assert (Hta : title (new_Bubble a) ≠ VUndefined) by (by rewrite Htitle).
    split_and!.
    + unfold Pages.del. rewrite run_bind, run_get by done. fold t.
      rewrite Ha. rewrite run_bind, !run_del by done. done.
    + rewrite run_del by done. cbn [fst nodes]. rewrite Htitle.
      apply filter_none.
    + unfold Pages.del. rewrite statements_bind, statements_get.
      rewrite run_get by done. fold t. rewrite Ha.
      rewrite statements_bind. unfold Bubble_del at 1. cbn [statements].
      destruct (cypher g Q_del _) as [g1 r1].
      rewrite run_del by done.
      by destruct r1.
  - intros Hnone. split.
    + unfold Pages.del. rewrite run_bind, run_get by done. fold t.
      by rewrite Hnone.
    + unfold Pages.del. rewrite statements_bind, statements_get.
      rewrite run_get by done. fold t. by rewrite Hnone.
Qed.

(** X14 for "Alpha" in the store of "Alpha" related to "Beta". *)
Lemma del_route_outcomes_witness :
  run (Pages.del {| Routes.params_title := VString (js "Alpha");
                    Routes.body := ∅ |})
      related_bubbles
  = ({| nodes := [beta]; rels := []; next_id := 2 |},
     Normal (Routes.Redirect (js "/bubbles"))).
Proof.
  assert (Ht : Routes.params_title
                 {| Routes.params_title := VString (js "Alpha");
                    Routes.body := ∅ |} ≠ VUndefined) by discriminate.
  destruct (del_route_outcomes related_bubbles _ Ht) as (Hdel & _).
  destruct (Hdel alpha []) as (Hrun & _); [reflexivity|].
  exact Hrun.
Defined.

(** X15.  GET /bubbles/:title.  When the title matches one node, the route
    renders the Bubble of that node with two lists read off the store:
    [relatedTo], the nodes with another title that it has a relationship
    to, and [others], the nodes with another title that it has none to; the
    bubble itself is in neither, and the store stays as it is.  When the
    title matches no node, the route ends in [next] with "No such bubble
    with title: <title>" after that one statement. *)
Theorem show_route_outcomes
    (g : graph) (req : Pages.show_request) :
  Pages.show_params_title req ≠ VUndefined →
  let t := Pages.show_params_title req in
  (∀ a, filter (has_title t) (nodes g) = [a] →
     ∃ relatedTo others,
       run (Pages.show req) g
       = (g, Normal (Pages.ShowRender (new_Bubble a) relatedTo others
                       (get (Pages.show_query req) "title")
                       (get (Pages.show_query req) "error")))
       ∧ (∀ n, new_Bubble n ∈ relatedTo
               ↔ n ∈ nodes g ∧ title (new_Bubble n) ≠ t
                 ∧ (_id a, _id n) ∈ rels g)
       ∧ (∀ n, new_Bubble n ∈ others
               ↔ n ∈ nodes g ∧ title (new_Bubble n) ≠ t
                 ∧ (_id a, _id n) ∉ rels g))
  ∧ (filter (has_title t) (nodes g) = [] →
     run (Pages.show req) g = (g, Normal (Pages.ShowNext (no_such_bubble t)))
     ∧ statements (Pages.show req) g = [Q_get]).
Proof.
  intros Ht t. split.
  - intros a Ha.
    destruct (filter_singleton_in _ _ _ Ha) as [Hmem _].
    pose proof (has_title_title _ _ Hmem) as Htitle.
    assert (Hta : title (new_Bubble a) ≠ VUndefined) by (by rewrite Htitle).
    assert (Ha' : filter (has_title (title (new_Bubble a))) (nodes g) = [a])
      by (by rewrite Htitle).
    destruct (listing_members g (new_Bubble a) a Hta Ha')
      as (relatedTo & others & Hrun & Hrel & Hoth).
    rewrite Htitle in Hrel, Hoth.
    exists relatedTo, others. split_and!; [|done..].
    unfold Pages.show. rewrite run_bind, run_get by done. fold t.
    rewrite Ha. by rewrite run_bind, Hrun.
  - intros Hnone. split.
    + unfold Pages.show. rewrite run_bind, run_get by done. fold t.
      by rewrite Hnone.
    + unfold Pages.show. rewrite statements_bind, statements_get.
      rewrite run_get by done. fold t. by rewrite Hnone.
Qed.

(** X15 for "Alpha" in the store of "Alpha" related to "Beta". *)
Lemma show_route_outcomes_witness :
  ∃ relatedTo others,
    run (Pages.show {| Pages.show_params_title := VString (js "Alpha");
                       Pages.show_query := ∅ |})
        related_bubbles
    = (related_bubbles,
       Normal (Pages.ShowRender (new_Bubble alpha) relatedTo others
                 VUndefined VUndefined))
    ∧ new_Bubble beta ∈ relatedTo.
Proof.
  assert (Ht : Pages.show_params_title
                 {| Pages.show_params_title := VString (js "Alpha");
                    Pages.show_query := ∅ |} ≠ VUndefined) by discriminate.
  destruct (show_route_outcomes related_bubbles _ Ht) as (Hshow & _).
  destruct (Hshow alpha) as (relatedTo & others & Hrun & Hrel & _);
    [reflexivity|].
  exists relatedTo, others. split; [exact Hrun|].
  apply Hrel. split; [cbn; right; left|]. split; [discriminate | cbn; left].
Defined.

(** ** The relationships stay in order *)

Lemma elem_of_pairs (bs os : list node) (e : Z * Z) :
  e ∈ pairs bs os ↔ ∃ b o, b ∈ bs ∧ o ∈ os ∧ e = (_id b, _id o).
Proof.
  unfold pairs. rewrite list_elem_of_bind. split.
  - intros (b & He & Hb). apply list_elem_of_bind in He as (o & He & Ho).
    apply list_elem_of_singleton in He. by exists b, o.
  - intros (b & o & Hb & Ho & ->). exists b. split; [|done].
    apply list_elem_of_bind. exists o. split; [by left | done].
Qed.

Lemma merge_rel_NoDup (rs : list (Z * Z)) (e : Z * Z) :
  NoDup rs → NoDup (merge_rel rs e).
Proof.
  intros Hnd. unfold merge_rel. case_decide; [done|].
  apply NoDup_app. split_and!; [done| |apply NoDup_singleton].
  intros x Hx Hin. apply list_elem_of_singleton in Hin as ->. done.
Qed.

Lemma foldl_merge_rel_NoDup (rs ps : list (Z * Z)) :
  NoDup rs → NoDup (foldl merge_rel rs ps).
Proof.
  revert rs. induction ps as [|p ps IH]; intros rs Hnd; cbn [foldl]; [done|].
  by apply IH, merge_rel_NoDup.
Qed.

Lemma id_of_member (n : node) (l : list node) : n ∈ l → _id n ∈ map _id l.
Proof. intros H. apply list_elem_of_fmap. by exists n. Qed.

Lemma cypher_rels_in_order (g : graph) (q : query)
    (params : gmap string param) :
  rels_in_order g → rels_in_order (fst (cypher g q params)).
Proof.
  intros [Hnd Hends]. destruct q; cbn [cypher].
  - (* patch *)
    destruct (param_value params "title") as [t|]; [|done].
    destruct (param_map params "props") as [props|]; [|done].
    case_decide; [done|]. split; [done|]. cbn [fst nodes rels].
    rewrite map_id_update. exact Hends.
  - (* del *)
    destruct (param_value params "title") as [t|]; [|done].
    cbn [fst]. split; cbn [nodes rels].
    + by apply NoDup_filter.
    + intros e He. apply list_elem_of_filter in He as [Hkeep He].
      destruct (Hends e He) as [H1 H2].
      assert (Hstay : ∀ x, x ∈ map _id (nodes g) →
                x ∉ map _id (filter (has_title t) (nodes g)) →
                x ∈ map _id (filter (λ n, ¬ has_title t n) (nodes g))).
      { intros x Hx Hnot. apply list_elem_of_fmap in Hx as (n & -> & Hn).
        apply id_of_member, list_elem_of_filter. split; [|done].
        intros Hhas. apply Hnot, id_of_member.
        by apply list_elem_of_filter. }
      split; apply Hstay; try done; intros Hin; apply Hkeep; auto.
  - (* relate *)
    destruct (param_value params "thisTitle") as [t|]; [|done].
    destruct (param_value params "otherTitle") as [o|]; [|done].
    cbn [fst]. split; cbn [nodes rels].
    + by apply foldl_merge_rel_NoDup.
    + intros e He. apply foldl_merge_rel_elem in He as [He|He]; [by apply Hends|].
      apply elem_of_pairs in He as (b & o' & Hb & Ho & ->).
      apply list_elem_of_filter in Hb as [_ Hb].
      apply list_elem_of_filter in Ho as [_ Ho].
      cbn [fst snd]. split; by apply id_of_member.
  - (* unfollow *)
    destruct (param_value params "thisTitle") as [t|]; [|done].
    destruct (param_value params "otherTitle") as [o|]; [|done].
    cbn [fst]. split; cbn [nodes rels].
    + by apply NoDup_filter.
    + intros e He. apply list_elem_of_filter in He as [_ He]. by apply Hends.
  - by destruct (param_value params "thisTitle").
  - by destruct (param_value params "title").
  - done.
  - (* create *)
    destruct (param_map params "props") as [props|]; [|done].
    case_decide; [done|]. split; [done|]. cbn [fst nodes rels].
    intros e He. destruct (Hends e He) as [H1 H2].
    rewrite map_app. split; apply elem_of_app; by left.
Qed.

Lemma run_rels_in_order {A} (m : action A) (g : graph) :
  single m → rels_in_order g → rels_in_order (fst (run m g)).
Proof.
  intros Hs Hg. rewrite run_single by done.
  destruct (sent m) as [[q params]|]; [|done].
  by apply cypher_rels_in_order.
Qed.

(** X17.  Every operation of the model that changes the store keeps its
    relationships in order: after [create], [patch], [del], [relate] or
    [unfollow], whatever the arguments, each relationship still starts and
    ends at a node of the store, and no two relationships have the same start
    and end. *)
Theorem relationships_stay_in_order
    (g : graph) (self other : Bubble) (props : gmap string jsval) :
  rels_in_order g →
  rels_in_order (fst (run (Bubble_create props) g))
  ∧ rels_in_order (fst (run (Bubble_patch self props) g))
  ∧ rels_in_order (fst (run (Bubble_del self) g))
  ∧ rels_in_order (fst (run (Bubble_relate self other) g))
  ∧ rels_in_order (fst (run (Bubble_unfollow self other) g)).
Proof.
  intros Hg. split_and!; apply run_rels_in_order; try done.
  - apply single_create.
  - apply single_patch.
  - apply single_del.
  - apply single_relate.
  - apply single_unfollow.
Qed.

Lemma related_bubbles_in_order : rels_in_order related_bubbles.
Proof.
  split.
  - apply NoDup_singleton.
  - intros e He. apply list_elem_of_singleton in He as ->. cbn.
    split; [left | right; left].
Qed.

(** X17 for the deletion of "Beta" in the store of "Alpha" related to
    "Beta". *)
Lemma relationships_stay_in_order_witness :
  rels_in_order (fst (run (Bubble_del (new_Bubble beta)) related_bubbles)).
Proof.
  exact (proj1 (proj2 (proj2
    (relationships_stay_in_order related_bubbles (new_Bubble beta)
       (new_Bubble alpha) ∅ related_bubbles_in_order)))).
Defined.

(** ** The relate route *)



